(** * PXT engine: GPU buffers, descriptor writers and the ray-tracing scene
      manager, embedded in Rocq.

    The development follows the C++ sources

    - [Engine/src/graphics/resources/buffer.cpp]            (module [Buffer])
    - [Engine/src/graphics/descriptors.cpp]                 (module [Descriptors])
    - [Engine/src/graphics/descriptors/descriptor_writer.cpp]
                                                            (module [DescriptorWriterFile])
    - [Engine/src/graphics/render_systems/raytracing_scene_manager_system.hpp]
                                                            (modules [MeshInstance], [SceneManager])

    Machine integers are [Z] with the wrap-around written out, device memory
    is a [list Byte.byte], the Vulkan entry points the code calls are the
    methods of the class [Vulkan], and C++ control effects (a failed
    [assert], a thrown exception, a [memcpy] out of range) are the
    constructors of [outcome]. *)

From Stdlib Require Import ZArith Lia List Bool String.
From stdpp Require Import base option list gmap.

Local Open Scope Z_scope.

(** ** Fixed-width integers *)

Module Int.

(** [VkDeviceSize], [VkDeviceAddress], [uint64_t]. *)
Definition modulus64 : Z := 2 ^ 64.
Definition wrap64 (x : Z) : Z := x mod modulus64.
Definition add64 (x y : Z) : Z := wrap64 (x + y).
Definition sub64 (x y : Z) : Z := wrap64 (x - y).
Definition mul64 (x y : Z) : Z := wrap64 (x * y).
(** [~x] on a 64-bit unsigned operand. *)
Definition not64 (x : Z) : Z := wrap64 (Z.lnot x).
Definition and64 (x y : Z) : Z := Z.land x y.

(** The usual arithmetic conversion of an [int] operand that meets a
    [VkDeviceSize] one: the value modulo [2^64]. *)
Definition int_to_u64 (i : Z) : Z := wrap64 i.

End Int.

(** ** Outcomes of a C++ call *)

Inductive outcome (A : Type) : Type :=
| Ret (a : A)                       (* the call returns normally *)
| AssertionFailed (msg : string)    (* an [assert] fired *)
| Thrown (msg : string)             (* a [std::runtime_error] left the call *)
| Undefined.                        (* e.g. [memcpy] outside its objects *)

Arguments Ret {A} a.
Arguments AssertionFailed {A} msg.
Arguments Thrown {A} msg.
Arguments Undefined {A}.

Definition is_thrown {A} (o : outcome A) : bool :=
  match o with Thrown _ => true | _ => false end.

Definition is_assertion_failure {A} (o : outcome A) : bool :=
  match o with AssertionFailed _ => true | _ => false end.

(** Code that talks to the device threads the device state [D]. *)
Definition M (D A : Type) : Type := D -> outcome (A * D).

Definition ret {D A} (a : A) : M D A := fun d => Ret (a, d).

Definition bind {D A B} (c : M D A) (k : A -> M D B) : M D B :=
  fun d =>
    match c d with
    | Ret (a, d') => k a d'
    | AssertionFailed msg => AssertionFailed msg
    | Thrown msg => Thrown msg
    | Undefined => Undefined
    end.

(** A Vulkan entry point is a C function: it always returns. *)
Definition call {D A} (f : D -> A * D) : M D A := fun d => Ret (f d).
Definition call_ {D} (f : D -> D) : M D unit := fun d => Ret (tt, f d).

(** [assert(cond && msg)], in a build that keeps assertions. *)
Definition assert {D} (cond : bool) (msg : string) : M D unit :=
  fun d => if cond then Ret (tt, d) else AssertionFailed msg.

Definition throw {D A} (msg : string) : M D A := fun _ => Thrown msg.

Notation "'do' x <- c1 ;; c2" := (bind c1 (fun x => c2))
  (at level 10, x name, c1 at level 99, c2 at level 200).
Notation "'do' ' pat <- c1 ;; c2" :=
  (bind c1 (fun x => match x with pat => c2 end))
  (at level 10, pat pattern, c1 at level 99, c2 at level 200).
Notation "'run' c1 ;; c2" := (bind c1 (fun _ => c2))
  (at level 10, c1 at level 99, c2 at level 200).

(** ** The Vulkan objects the code passes around *)

Definition VkResult := Z.
Definition VK_SUCCESS : VkResult := 0.
Definition VK_ERROR_MEMORY_MAP_FAILED : VkResult := -5.
Definition VK_ERROR_FRAGMENTED_POOL : VkResult := -12.
Definition VK_ERROR_OUT_OF_POOL_MEMORY : VkResult := -1000069000.

(** [VK_WHOLE_SIZE] is [(~0ULL)]. *)
Definition VK_WHOLE_SIZE : Z := Int.not64 0.

(** Handles; [VK_NULL_HANDLE] is 0. *)
Definition VkBuffer := Z.
Definition VkDeviceMemory := Z.
Definition VkDescriptorSet := Z.
Definition VkDescriptorSetLayout := Z.
Definition VkDescriptorPool := Z.
Definition VK_NULL_HANDLE : Z := 0.

(** A host pointer into a mapped [VkDeviceMemory] object: the range of the
    object that the mapping gives access to, and the position of the pointer
    from the start of that range.  [vkMapMemory] yields a pointer at position
    0 of the range it mapped.  [nullptr] is [None]. *)
Record pointer := {
  region_start : Z;      (* offset of the mapped range in the memory object *)
  region_size : Z;       (* bytes mapped *)
  position : Z
}.

Definition HostPtr := option pointer.
Definition nullptr : HostPtr := None.

(** The byte of the memory object that [p] designates. *)
Definition address (p : pointer) : Z := region_start p + position p.

(** [p + k] on a [char*]. *)
Definition advance (p : pointer) (k : Z) : pointer :=
  {| region_start := region_start p;
     region_size := region_size p;
     position := position p + k |}.

(** A pointer at the start of the range of [size] bytes from [offset]. *)
Definition mapping (offset size : Z) : pointer :=
  {| region_start := offset; region_size := size; position := 0 |}.

Record VkMappedMemoryRange := {
  range_memory : VkDeviceMemory;
  range_offset : Z;
  range_size : Z
}.

Record VkDescriptorBufferInfo := {
  info_buffer : VkBuffer;
  info_offset : Z;
  info_range : Z
}.

Record VkDescriptorImageInfo := {
  info_sampler : Z;
  info_imageView : Z;
  info_imageLayout : Z
}.

Record VkDescriptorSetLayoutBinding := {
  binding : Z;
  descriptorType : Z;
  descriptorCount : Z;
  stageFlags : Z
}.

Record VkDescriptorPoolSize := {
  pool_type : Z;
  pool_descriptorCount : Z
}.

Record VkDescriptorPoolCreateInfo := {
  poolSizes : list VkDescriptorPoolSize;
  maxSets : Z;
  poolFlags : Z
}.

Record VkDescriptorSetAllocateInfo := {
  alloc_descriptorPool : VkDescriptorPool;
  alloc_setLayouts : list VkDescriptorSetLayout;
  alloc_descriptorSetCount : Z
}.

(** [pBufferInfo] and [pImageInfo] are held as the structures they point to;
    a null pointer is [None]. *)
Record VkWriteDescriptorSet := {
  dstSet : VkDescriptorSet;
  dstBinding : Z;
  write_descriptorType : Z;
  write_descriptorCount : Z;
  pBufferInfo : option VkDescriptorBufferInfo;
  pImageInfo : option VkDescriptorImageInfo
}.

(** The entry points used by the sources, over a device state [D].  An
    entry point that stores through a pointer to a variable of the caller
    ([ppData], [pDescriptorSets]) takes the value the variable has before the
    call and returns the value it has afterwards; the two creation calls
    return the handle they store.
    [createBuffer] is [Context::createBuffer], whose definition is not among
    the sources: it either yields the buffer and its memory or throws. *)
Class Vulkan (D : Type) : Type := {
  vkMapMemory :
    VkDeviceMemory -> Z -> Z -> HostPtr -> D -> (VkResult * HostPtr) * D;
  vkUnmapMemory : VkDeviceMemory -> D -> D;
  vkFlushMappedMemoryRanges : list VkMappedMemoryRange -> D -> VkResult * D;
  vkInvalidateMappedMemoryRanges : list VkMappedMemoryRange -> D -> VkResult * D;
  vkDestroyBuffer : VkBuffer -> D -> D;
  vkFreeMemory : VkDeviceMemory -> D -> D;
  createBuffer : Z -> Z -> Z -> M D (VkBuffer * VkDeviceMemory);
  vkCreateDescriptorSetLayout :
    list VkDescriptorSetLayoutBinding -> D -> (VkResult * VkDescriptorSetLayout) * D;
  vkDestroyDescriptorSetLayout : VkDescriptorSetLayout -> D -> D;
  vkCreateDescriptorPool :
    VkDescriptorPoolCreateInfo -> D -> (VkResult * VkDescriptorPool) * D;
  vkDestroyDescriptorPool : VkDescriptorPool -> D -> D;
  vkAllocateDescriptorSets :
    VkDescriptorSetAllocateInfo -> VkDescriptorSet -> D ->
    (VkResult * VkDescriptorSet) * D;
  vkFreeDescriptorSets : VkDescriptorPool -> list VkDescriptorSet -> D -> VkResult * D;
  vkResetDescriptorPool : VkDescriptorPool -> D -> VkResult * D;
  vkUpdateDescriptorSets : list VkWriteDescriptorSet -> D -> D
}.

(** ** Raw memory *)

Definition zlen {A} (l : list A) : Z := Z.of_nat (length l).

(** [n] bytes of [src] put at byte [dst] of [mem]; both ranges have to lie
    inside their objects. *)
Definition store_bytes (mem : list Byte.byte) (dst : Z) (src : list Byte.byte) (n : Z)
  : outcome (list Byte.byte) :=
  if (0 <=? dst) && (0 <=? n) && (dst + n <=? zlen mem) && (n <=? zlen src)
  then Ret (take (Z.to_nat dst) mem ++ take (Z.to_nat n) src
            ++ drop (Z.to_nat (dst + n)) mem)
  else Undefined.

(** [memcpy(dst, src, n)] through a host pointer: the destination has to lie
    inside the range that the pointer gives access to. *)
Definition memcpy (mem : list Byte.byte) (dst : pointer) (src : list Byte.byte) (n : Z)
  : outcome (list Byte.byte) :=
  if (0 <=? position dst) && (position dst + n <=? region_size dst)
  then store_bytes mem (address dst) src n
  else Undefined.

(** [p] points into a range that is part of [mem]. *)
Definition in_memory (mem : list Byte.byte) (p : pointer) : Prop :=
  0 <= region_start p /\ 0 <= position p /\
  region_start p + region_size p <= zlen mem.

(** The bytes of [mem] in the range [[off, off + len)]. *)
Definition read_range (mem : list Byte.byte) (off len : Z) : list Byte.byte :=
  take (Z.to_nat len) (drop (Z.to_nat off) mem).

(** [mem'] is [mem] after [n] bytes of [src] were copied to offset [dst]:
    the range holds the bytes of [src] and every other byte is as before. *)
Definition copied (mem mem' : list Byte.byte) (dst : Z) (src : list Byte.byte) (n : Z)
  : Prop :=
  length mem' = length mem /\
  read_range mem' dst n = take (Z.to_nat n) src /\
  forall k : nat, Z.of_nat k < dst \/ dst + n <= Z.of_nat k -> mem' !! k = mem !! k.

(** ** [buffer.cpp] *)

Module Buffer.

Import Int.

(** [Buffer::getAlignment], lines 8-13. *)
Definition getAlignment (instanceSize minOffsetAlignment : Z) : Z :=
  if 0 <? minOffsetAlignment
  then and64 (sub64 (add64 instanceSize minOffsetAlignment) 1)
             (not64 (sub64 minOffsetAlignment 1))
  else instanceSize.

Record t := {
  m_mapped : HostPtr;
  m_buffer : VkBuffer;
  m_memory : VkDeviceMemory;
  m_bufferSize : Z;
  m_instanceCount : Z;
  m_instanceSize : Z;
  m_alignmentSize : Z;
  m_usageFlags : Z;
  m_memoryPropertyFlags : Z
}.

Definition set_mapped (b : t) (p : HostPtr) : t :=
  {| m_mapped := p;
     m_buffer := m_buffer b;
     m_memory := m_memory b;
     m_bufferSize := m_bufferSize b;
     m_instanceCount := m_instanceCount b;
     m_instanceSize := m_instanceSize b;
     m_alignmentSize := m_alignmentSize b;
     m_usageFlags := m_usageFlags b;
     m_memoryPropertyFlags := m_memoryPropertyFlags b |}.

Section WithDevice.
Context {D : Type} `{Vulkan D}.

(** [Buffer::Buffer], lines 15-29. *)
Definition new (instanceSize instanceCount usageFlags memoryPropertyFlags
                minOffsetAlignment : Z) : M D t :=
  let alignmentSize := getAlignment instanceSize minOffsetAlignment in
  let bufferSize := mul64 alignmentSize instanceCount in
  do '(buffer, memory) <- createBuffer bufferSize usageFlags memoryPropertyFlags ;;
  ret {| m_mapped := nullptr;
         m_buffer := buffer;
         m_memory := memory;
         m_bufferSize := bufferSize;
         m_instanceCount := instanceCount;
         m_instanceSize := instanceSize;
         m_alignmentSize := alignmentSize;
         m_usageFlags := usageFlags;
         m_memoryPropertyFlags := memoryPropertyFlags |}.

(** [Buffer::map], lines 37-41. *)
Definition map (b : t) (size offset : Z) : M D (VkResult * t) :=
  run assert (negb (m_buffer b =? VK_NULL_HANDLE) && negb (m_memory b =? VK_NULL_HANDLE))
             "Called map on buffer before create" ;;
  do '(res, p) <- call (vkMapMemory (m_memory b) offset size (m_mapped b)) ;;
  ret (res, set_mapped b p).

(** [Buffer::unmap], lines 43-48. *)
Definition unmap (b : t) : M D t :=
  match m_mapped b with
  | Some _ =>
      run call_ (vkUnmapMemory (m_memory b)) ;;
      ret (set_mapped b nullptr)
  | None => ret b
  end.

(** [Buffer::~Buffer], lines 31-35. *)
Definition destroy (b : t) : M D unit :=
  do b' <- unmap b ;;
  run call_ (vkDestroyBuffer (m_buffer b')) ;;
  call_ (vkFreeMemory (m_memory b')).

(** [Buffer::flush], lines 62-69. *)
Definition flush (b : t) (size offset : Z) : M D VkResult :=
  let mappedRange :=
    {| range_memory := m_memory b; range_offset := offset; range_size := size |} in
  call (vkFlushMappedMemoryRanges [mappedRange]).

(** [Buffer::invalidate], lines 71-78. *)
Definition invalidate (b : t) (size offset : Z) : M D VkResult :=
  let mappedRange :=
    {| range_memory := m_memory b; range_offset := offset; range_size := size |} in
  call (vkInvalidateMappedMemoryRanges [mappedRange]).

(** [Buffer::flushIndex], line 92. *)
Definition flushIndex (b : t) (index : Z) : M D VkResult :=
  flush b (m_alignmentSize b) (mul64 (int_to_u64 index) (m_alignmentSize b)).

(** [Buffer::invalidateIndex], lines 98-100. *)
Definition invalidateIndex (b : t) (index : Z) : M D VkResult :=
  invalidate b (m_alignmentSize b) (mul64 (int_to_u64 index) (m_alignmentSize b)).

End WithDevice.

(** [Buffer::writeToBuffer], lines 50-60.  [data] are the bytes behind the
    [void*] argument, [mem] the content of [m_memory].  The [assert] is that
    of a build that keeps assertions. *)
Definition writeToBuffer (b : t) (data : list Byte.byte) (size offset : Z)
           (mem : list Byte.byte) : outcome (list Byte.byte) :=
  match m_mapped b with
  | None => AssertionFailed "Cannot copy to unmapped buffer"
  | Some mapped =>
      if size =? VK_WHOLE_SIZE
      then memcpy mem mapped data (m_bufferSize b)
      else
        let memOffset := advance mapped offset in
        memcpy mem memOffset data size
  end.

(** [Buffer::descriptorInfo], lines 80-86. *)
Definition descriptorInfo (b : t) (size offset : Z) : VkDescriptorBufferInfo :=
  {| info_buffer := m_buffer b; info_offset := offset; info_range := size |}.

(** [Buffer::writeToIndex], lines 88-90. *)
Definition writeToIndex (b : t) (data : list Byte.byte) (index : Z)
           (mem : list Byte.byte) : outcome (list Byte.byte) :=
  writeToBuffer b data (m_instanceSize b)
                (mul64 (int_to_u64 index) (m_alignmentSize b)) mem.

(** [Buffer::descriptorInfoForIndex], lines 94-96. *)
Definition descriptorInfoForIndex (b : t) (index : Z) : VkDescriptorBufferInfo :=
  descriptorInfo b (m_alignmentSize b) (mul64 (int_to_u64 index) (m_alignmentSize b)).

(** What a reader of the descriptor sees: the bytes of the buffer, which is
    bound at the start of its memory, over the range of [info]. *)
Definition read_descriptor (mem : list Byte.byte) (info : VkDescriptorBufferInfo)
  : list Byte.byte :=
  read_range mem (info_offset info) (info_range info).

End Buffer.

(** ** [descriptors.cpp] *)

Module Descriptors.

(** *** Descriptor set layout builder *)

(** [m_bindings] is a [std::unordered_map<uint32_t, VkDescriptorSetLayoutBinding>]. *)
Record LayoutBuilder := {
  builder_bindings : gmap Z VkDescriptorSetLayoutBinding
}.

(** [DescriptorSetLayout::Builder::addBinding], lines 11-24. *)
Definition addBinding (bld : LayoutBuilder) (binding descriptorType stageFlags count : Z)
  : outcome LayoutBuilder :=
  match builder_bindings bld !! binding with
  | Some _ => AssertionFailed "Binding already in use"
  | None =>
      let layoutBinding :=
        {| binding := binding;
           descriptorType := descriptorType;
           descriptorCount := count;
           stageFlags := stageFlags |} in
      Ret {| builder_bindings := <[binding := layoutBinding]> (builder_bindings bld) |}
  end.

Record DescriptorSetLayout := {
  m_descriptorSetLayout : VkDescriptorSetLayout;
  m_bindings : gmap Z VkDescriptorSetLayoutBinding
}.

Definition getDescriptorSetLayout (l : DescriptorSetLayout) : VkDescriptorSetLayout :=
  m_descriptorSetLayout l.

(** *** Descriptor pool *)

Record PoolBuilder := {
  m_poolSizes : list VkDescriptorPoolSize;
  m_maxSets : Z;
  m_poolFlags : Z
}.

(** [DescriptorPool::Builder::addPoolSize], lines 60-64. *)
Definition addPoolSize (bld : PoolBuilder) (descriptorType count : Z) : PoolBuilder :=
  {| m_poolSizes := m_poolSizes bld ++
                    [{| pool_type := descriptorType; pool_descriptorCount := count |}];
     m_maxSets := m_maxSets bld;
     m_poolFlags := m_poolFlags bld |}.

(** [DescriptorPool::Builder::setPoolFlags], lines 66-70. *)
Definition setPoolFlags (bld : PoolBuilder) (flags : Z) : PoolBuilder :=
  {| m_poolSizes := m_poolSizes bld; m_maxSets := m_maxSets bld; m_poolFlags := flags |}.

(** [DescriptorPool::Builder::setMaxSets], lines 71-74. *)
Definition setMaxSets (bld : PoolBuilder) (count : Z) : PoolBuilder :=
  {| m_poolSizes := m_poolSizes bld; m_maxSets := count; m_poolFlags := m_poolFlags bld |}.

Record DescriptorPool := {
  m_descriptorPool : VkDescriptorPool
}.

(** The [allocInfo] that [allocateDescriptorSet] fills in, lines 107-111. *)
Definition allocInfo_of (pool : DescriptorPool) (layout : VkDescriptorSetLayout)
  : VkDescriptorSetAllocateInfo :=
  {| alloc_descriptorPool := m_descriptorPool pool;
     alloc_setLayouts := [layout];
     alloc_descriptorSetCount := 1 |}.

(** *** Descriptor writer *)

Record DescriptorWriter := {
  m_setLayout : DescriptorSetLayout;
  m_pool : DescriptorPool;
  m_writes : list VkWriteDescriptorSet
}.

(** [DescriptorWriter::DescriptorWriter], lines 135-136. *)
Definition newWriter (setLayout : DescriptorSetLayout) (pool : DescriptorPool)
  : DescriptorWriter :=
  {| m_setLayout := setLayout; m_pool := pool; m_writes := [] |}.

Definition push_write (w : DescriptorWriter) (write : VkWriteDescriptorSet)
  : DescriptorWriter :=
  {| m_setLayout := m_setLayout w; m_pool := m_pool w; m_writes := m_writes w ++ [write] |}.

Definition set_writes (w : DescriptorWriter) (writes : list VkWriteDescriptorSet)
  : DescriptorWriter :=
  {| m_setLayout := m_setLayout w; m_pool := m_pool w; m_writes := writes |}.

(** [DescriptorWriter::writeBuffer], lines 138-157. *)
Definition writeBuffer (w : DescriptorWriter) (binding : Z)
           (bufferInfo : option VkDescriptorBufferInfo) : outcome DescriptorWriter :=
  match m_bindings (m_setLayout w) !! binding with
  | None => AssertionFailed "Layout does not contain specified binding"
  | Some bindingDescription =>
      if descriptorCount bindingDescription =? 1
      then
        let write :=
          {| dstSet := VK_NULL_HANDLE;
             dstBinding := binding;
             write_descriptorType := descriptorType bindingDescription;
             write_descriptorCount := 1;
             pBufferInfo := bufferInfo;
             pImageInfo := None |} in
        Ret (push_write w write)
      else AssertionFailed "Binding single descriptor info, but binding expects multiple"
  end.

(** [DescriptorWriter::writeImage], lines 159-178. *)
Definition writeImage (w : DescriptorWriter) (binding : Z)
           (imageInfo : option VkDescriptorImageInfo) : outcome DescriptorWriter :=
  match m_bindings (m_setLayout w) !! binding with
  | None => AssertionFailed "Layout does not contain specified binding"
  | Some bindingDescription =>
      if descriptorCount bindingDescription =? 1
      then
        let write :=
          {| dstSet := VK_NULL_HANDLE;
             dstBinding := binding;
             write_descriptorType := descriptorType bindingDescription;
             write_descriptorCount := 1;
             pBufferInfo := None;
             pImageInfo := imageInfo |} in
        Ret (push_write w write)
      else AssertionFailed "Binding single descriptor info, but binding expects multiple"
  end.

(** The body of the loop of [overwrite]: [write.dstSet = set]. *)
Definition retarget (set : VkDescriptorSet) (write : VkWriteDescriptorSet)
  : VkWriteDescriptorSet :=
  {| dstSet := set;
     dstBinding := dstBinding write;
     write_descriptorType := write_descriptorType write;
     write_descriptorCount := write_descriptorCount write;
     pBufferInfo := pBufferInfo write;
     pImageInfo := pImageInfo write |}.

Section WithDevice.
Context {D : Type} `{Vulkan D}.


(** [DescriptorSetLayout::~DescriptorSetLayout], lines 54-56. *)
Definition destroyLayout (l : DescriptorSetLayout) : M D unit :=
  call_ (vkDestroyDescriptorSetLayout (m_descriptorSetLayout l)).

(** [DescriptorPool::Builder::build] and [DescriptorPool::DescriptorPool],
    lines 76-99. *)
Definition buildPool (bld : PoolBuilder) : M D DescriptorPool :=
  let descriptorPoolInfo :=
    {| poolSizes := m_poolSizes bld;
       maxSets := m_maxSets bld;
       poolFlags := m_poolFlags bld |} in
  do '(res, handle) <- call (vkCreateDescriptorPool descriptorPoolInfo) ;;
  if res =? VK_SUCCESS
  then ret {| m_descriptorPool := handle |}
  else throw "failed to create descriptor pool!".

(** [DescriptorPool::~DescriptorPool], lines 101-103. *)
Definition destroyPool (pool : DescriptorPool) : M D unit :=
  call_ (vkDestroyDescriptorPool (m_descriptorPool pool)).

(** [DescriptorPool::allocateDescriptorSet], lines 105-119.  The second
    component of the result is the caller's [descriptor] after the call. *)
Definition allocateDescriptorSet (pool : DescriptorPool)
           (descriptorSetLayout : VkDescriptorSetLayout) (descriptor : VkDescriptorSet)
  : M D (bool * VkDescriptorSet) :=
  let allocInfo := allocInfo_of pool descriptorSetLayout in
  do '(res, descriptor') <- call (vkAllocateDescriptorSets allocInfo descriptor) ;;
  if negb (res =? VK_SUCCESS)
  then ret (false, descriptor')
  else ret (true, descriptor').

(** [DescriptorPool::freeDescriptors], lines 121-127. *)
Definition freeDescriptors (pool : DescriptorPool) (descriptors : list VkDescriptorSet)
  : M D unit :=
  do _ <- call (vkFreeDescriptorSets (m_descriptorPool pool) descriptors) ;;
  ret tt.

(** [DescriptorPool::resetPool], lines 129-131. *)
Definition resetPool (pool : DescriptorPool) : M D unit :=
  do _ <- call (vkResetDescriptorPool (m_descriptorPool pool)) ;;
  ret tt.

(** [DescriptorWriter::overwrite], lines 189-194. *)
Definition overwrite (w : DescriptorWriter) (set : VkDescriptorSet)
  : M D DescriptorWriter :=
  let writes := List.map (retarget set) (m_writes w) in
  run call_ (vkUpdateDescriptorSets writes) ;;
  ret (set_writes w writes).

(** [DescriptorWriter::build], lines 180-187.  The result carries the
    returned [bool], the writer and the caller's [set] after the call. *)
Definition build (w : DescriptorWriter) (set : VkDescriptorSet)
  : M D (bool * DescriptorWriter * VkDescriptorSet) :=
  do '(success, set') <-
    allocateDescriptorSet (m_pool w) (getDescriptorSetLayout (m_setLayout w)) set ;;
  if negb success
  then ret (false, w, set')
  else
    do w' <- overwrite w set' ;;
    ret (true, w', set').

End WithDevice.

End Descriptors.

(** ** [descriptors/descriptor_writer.cpp]

    The second definition of the writer's [build] and [overwrite]; the pool,
    the layout and the writer's fields are those of [Descriptors]. *)

Module DescriptorWriterFile.

Import Descriptors.

Section WithDevice.
Context {D : Type} `{Vulkan D}.

(** [DescriptorWriter::overwrite], lines 16-21. *)
Definition overwrite (w : DescriptorWriter) (set : VkDescriptorSet)
  : M D DescriptorWriter :=
  let writes := List.map (retarget set) (m_writes w) in
  run call_ (vkUpdateDescriptorSets writes) ;;
  ret (set_writes w writes).

(** [DescriptorWriter::build], lines 10-14: a [void] function; the value
    of [allocateDescriptorSet] is dropped.  The result carries the writer
    and the caller's [set] after the call. *)
Definition build (w : DescriptorWriter) (set : VkDescriptorSet)
  : M D (DescriptorWriter * VkDescriptorSet) :=
  do '(_, set') <-
    allocateDescriptorSet (m_pool w) (getDescriptorSetLayout (m_setLayout w)) set ;;
  do w' <- overwrite w set' ;;
  ret (w', set').

End WithDevice.

End DescriptorWriterFile.

(** ** [raytracing_scene_manager_system.hpp]: the mesh instance record *)

Module MeshInstance.

(** The member types of [MeshInstanceData] with their size and natural
    alignment in bytes: [VkDeviceAddress] is [uint64_t], [glm::vec4] is four
    [float]s. *)
Inductive ctype := VkDeviceAddress_t | uint32_t | float_t | glm_vec4.

Definition sizeof_type (ty : ctype) : Z :=
  match ty with
  | VkDeviceAddress_t => 8
  | uint32_t => 4
  | float_t => 4
  | glm_vec4 => 16
  end.

Definition alignof_type (ty : ctype) : Z :=
  match ty with
  | VkDeviceAddress_t => 8
  | uint32_t => 4
  | float_t => 4
  | glm_vec4 => 4
  end.

Record member := {
  member_name : string;
  member_type : ctype;
  member_alignas : option Z      (* an [alignas(n)] on the member *)
}.

Record struct_decl := {
  struct_alignas : option Z;     (* an [alignas(n)] on the struct *)
  struct_members : list member
}.

(** [struct alignas(16) MeshInstanceData], lines 10-17. *)
Definition MeshInstanceData_decl : struct_decl :=
  {| struct_alignas := Some 16;
     struct_members :=
       [ {| member_name := "vertexBufferAddress"; member_type := VkDeviceAddress_t;
            member_alignas := None |};
         {| member_name := "indexBufferAddress"; member_type := VkDeviceAddress_t;
            member_alignas := None |};
         {| member_name := "materialIndex"; member_type := uint32_t;
            member_alignas := None |};
         {| member_name := "textureTilingFactor"; member_type := float_t;
            member_alignas := None |};
         {| member_name := "textureTintColor"; member_type := glm_vec4;
            member_alignas := Some 16 |} ] |}.

(** Layout of a standard-layout class: members in declaration order, each
    at the next multiple of its alignment; the alignment of the class is
    the strictest one in it, and its size is rounded up to that. *)
Definition align_up (offset alignment : Z) : Z :=
  (offset + alignment - 1) / alignment * alignment.

Definition member_align (m : member) : Z :=
  Z.max (alignof_type (member_type m)) (default 1 (member_alignas m)).

Fixpoint place (offset : Z) (ms : list member) : list (string * Z) * Z :=
  match ms with
  | [] => ([], offset)
  | m :: ms' =>
      let at_ := align_up offset (member_align m) in
      let '(rest, end_) := place (at_ + sizeof_type (member_type m)) ms' in
      ((member_name m, at_) :: rest, end_)
  end.

Definition alignof (s : struct_decl) : Z :=
  fold_right Z.max (default 1 (struct_alignas s)) (List.map member_align (struct_members s)).

Definition sizeof (s : struct_decl) : Z :=
  align_up (snd (place 0 (struct_members s))) (alignof s).

Fixpoint assoc (name : string) (l : list (string * Z)) : option Z :=
  match l with
  | [] => None
  | (n, v) :: l' => if String.eqb n name then Some v else assoc name l'
  end.

Definition offsetof (s : struct_decl) (name : string) : option Z :=
  assoc name (fst (place 0 (struct_members s))).

(** Byte offset of element [k] of an array (or [std::vector]) of [s]. *)
Definition element_offset (s : struct_decl) (k : Z) : Z := k * sizeof s.

(** A value of the record.  A [float] is carried as its 32-bit pattern. *)
Record MeshInstanceData := {
  vertexBufferAddress : Z;
  indexBufferAddress : Z;
  materialIndex : Z;
  textureTilingFactor : Z;
  textureTintColor : Z * Z * Z * Z
}.

(** The [n] bytes of [v], least significant first. *)
Fixpoint le_bytes (n : nat) (v : Z) : list Byte.byte :=
  match n with
  | O => []
  | S n' =>
      match Byte.of_N (Z.to_N (v mod 256)) with
      | Some b => b :: le_bytes n' (v / 256)
      | None => Byte.x00 :: le_bytes n' (v / 256)
      end
  end.

(** Object representation of a record on a little-endian target; [pad] fills
    the eight bytes between [textureTilingFactor] and [textureTintColor]. *)
Definition object_bytes (pad : Byte.byte) (r : MeshInstanceData) : list Byte.byte :=
  let '(x, y, z, w) := textureTintColor r in
  le_bytes 8 (vertexBufferAddress r)
  ++ le_bytes 8 (indexBufferAddress r)
  ++ le_bytes 4 (materialIndex r)
  ++ le_bytes 4 (textureTilingFactor r)
  ++ replicate 8 pad
  ++ le_bytes 4 x ++ le_bytes 4 y ++ le_bytes 4 z ++ le_bytes 4 w.

(** The storage of a [std::vector<MeshInstanceData>]: the elements one
    after the other. *)
Definition vector_bytes (pad : Byte.byte) (v : list MeshInstanceData) : list Byte.byte :=
  concat (List.map (object_bytes pad) v).

End MeshInstance.

(** ** [raytracing_scene_manager_system.hpp]: the scene manager *)

Module SceneManager.

Record VkAccelerationStructureBuildSizesInfoKHR := {
  accelerationStructureSize : Z;
  updateScratchSize : Z;
  buildScratchSize : Z
}.

Record VkAccelerationStructureCreateInfoKHR := {
  create_buffer : VkBuffer;
  create_offset : Z;
  create_size : Z;
  create_type : Z
}.

(** [FrameInfo], [frame_info.hpp] lines 26-33; the camera and the scene are
    references, held as the identity of the object referred to. *)
Record FrameInfo := {
  frameIndex : Z;
  frameTime : Z;
  commandBuffer : Z;
  camera : Z;
  globalDescriptorSet : VkDescriptorSet;
  scene : Z
}.

(** The data members, lines 46-62.  A [Unique] or [Shared] pointer is the
    object it owns, [None] when null; the three references are the
    identity of the object referred to. *)
Record t := {
  m_context : Z;
  m_materialRegistry : Z;
  m_blasRegistry : Z;
  m_tlas : Z;
  m_tlasBuffer : option VkBuffer;
  m_buildSizeInfo : VkAccelerationStructureBuildSizesInfoKHR;
  m_createInfo : VkAccelerationStructureCreateInfoKHR;
  m_descriptorAllocator : option Z;
  m_tlasDescriptorSetLayout : option Descriptors.DescriptorSetLayout;
  m_tlasDescriptorSet : VkDescriptorSet;
  m_meshInstanceData : list MeshInstance.MeshInstanceData;
  m_meshInstanceDescriptorSetLayout : option Descriptors.DescriptorSetLayout;
  m_meshInstanceBuffer : option VkBuffer;
  m_meshInstanceDescriptorSet : VkDescriptorSet
}.

(** [getTLASDescriptorSet], line 31. *)
Definition getTLASDescriptorSet (s : t) : VkDescriptorSet := m_tlasDescriptorSet s.

(** [getTLASDescriptorSetLayout], line 32: dereferences the shared pointer. *)
Definition getTLASDescriptorSetLayout (s : t) : outcome VkDescriptorSetLayout :=
  match m_tlasDescriptorSetLayout s with
  | Some l => Ret (Descriptors.getDescriptorSetLayout l)
  | None => Undefined
  end.

(** [getMeshInstanceDescriptorSet], line 34. *)
Definition getMeshInstanceDescriptorSet (s : t) : VkDescriptorSet :=
  m_meshInstanceDescriptorSet s.

(** [getMeshInstanceDescriptorSetLayout], line 35. *)
Definition getMeshInstanceDescriptorSetLayout (s : t) : outcome VkDescriptorSetLayout :=
  match m_meshInstanceDescriptorSetLayout s with
  | Some l => Ret (Descriptors.getDescriptorSetLayout l)
  | None => Undefined
  end.

(** The public member functions that can be called on a live object. *)
Inductive operation :=
| CreateTLAS (frameInfo : FrameInfo)
| UpdateTLAS
| GetTLASDescriptorSet
| GetTLASDescriptorSetLayout
| GetMeshInstanceDescriptorSet
| GetMeshInstanceDescriptorSetLayout.

Definition is_createTLAS (op : operation) : bool :=
  match op with CreateTLAS _ => true | _ => false end.

Section WithDevice.
Context {D : Type}.

(** [updateTLAS], line 30: [void updateTLAS() {}]. *)
Definition updateTLAS (s : t) : M D t := ret s.

(** [createTLAS] is declared on line 29 and defined in a file that is not
    part of the sources at hand: it is a parameter. *)
Variable createTLAS : FrameInfo -> t -> M D t.

(** The effect of one public call on the object and the device; what a
    getter returns is dropped. *)
Definition perform (op : operation) (s : t) : M D t :=
  match op with
  | CreateTLAS frameInfo => createTLAS frameInfo s
  | UpdateTLAS => updateTLAS s
  | GetTLASDescriptorSet =>
      let _ := getTLASDescriptorSet s in ret s
  | GetTLASDescriptorSetLayout =>
      fun d =>
        match getTLASDescriptorSetLayout s with
        | Ret _ => Ret (s, d)
        | AssertionFailed msg => AssertionFailed msg
        | Thrown msg => Thrown msg
        | Undefined => Undefined
        end
  | GetMeshInstanceDescriptorSet =>
      let _ := getMeshInstanceDescriptorSet s in ret s
  | GetMeshInstanceDescriptorSetLayout =>
      fun d =>
        match getMeshInstanceDescriptorSetLayout s with
        | Ret _ => Ret (s, d)
        | AssertionFailed msg => AssertionFailed msg
        | Thrown msg => Thrown msg
        | Undefined => Undefined
        end
  end.

End WithDevice.

End SceneManager.

(** ** A simulated device

    A small device to run the code on: it records the entry points called
    and hands out descriptor sets from one pool until the pool is exhausted.
    [vkMapMemory] maps a range of a host-visible memory it knows and yields
    the pointer to the first byte of that range, that is to byte [offset] of
    the memory object; a failed [vkAllocateDescriptorSets] stores
    [VK_NULL_HANDLE]. *)

Module Sim.

Inductive VkCall :=
| CreateBuffer (size usage properties : Z)
| MapMemory (memory : VkDeviceMemory) (offset size : Z)
| UnmapMemory (memory : VkDeviceMemory)
| FlushMappedMemoryRanges (ranges : list VkMappedMemoryRange)
| InvalidateMappedMemoryRanges (ranges : list VkMappedMemoryRange)
| DestroyBuffer (buffer : VkBuffer)
| FreeMemory (memory : VkDeviceMemory)
| CreateDescriptorSetLayout (bindings : list VkDescriptorSetLayoutBinding)
| DestroyDescriptorSetLayout (layout : VkDescriptorSetLayout)
| CreateDescriptorPool (info : VkDescriptorPoolCreateInfo)
| DestroyDescriptorPool (pool : VkDescriptorPool)
| AllocateDescriptorSets (info : VkDescriptorSetAllocateInfo)
| FreeDescriptorSets (pool : VkDescriptorPool) (sets : list VkDescriptorSet)
| ResetDescriptorPool (pool : VkDescriptorPool)
| UpdateDescriptorSets (writes : list VkWriteDescriptorSet).

Record device := {
  calls : list VkCall;              (* oldest first *)
  free_sets : Z;                    (* sets the pool can still hand out *)
  next_handle : Z;
  memories : gmap Z (Z * Z)         (* memory handle to (size, property flags) *)
}.

Definition log (c : VkCall) (d : device) : device :=
  {| calls := calls d ++ [c]; free_sets := free_sets d;
     next_handle := next_handle d; memories := memories d |}.

Definition fresh (d : device) : Z * device :=
  (next_handle d,
   {| calls := calls d; free_sets := free_sets d;
      next_handle := next_handle d + 1; memories := memories d |}).

Definition take_set (d : device) : device :=
  {| calls := calls d; free_sets := free_sets d - 1;
     next_handle := next_handle d; memories := memories d |}.

Definition add_memory (memory size properties : Z) (d : device) : device :=
  {| calls := calls d; free_sets := free_sets d; next_handle := next_handle d;
     memories := <[memory := (size, properties)]> (memories d) |}.

(** [VK_MEMORY_PROPERTY_HOST_VISIBLE_BIT] is bit 1. *)
Definition host_visible (properties : Z) : bool := Z.testbit properties 1.

Definition map_memory (memory offset size : Z) (old : HostPtr) (d : device)
  : (VkResult * HostPtr) * device :=
  let d' := log (MapMemory memory offset size) d in
  match memories d !! memory with
  | Some (total, properties) =>
      let mapped := if size =? VK_WHOLE_SIZE then total - offset else size in
      if host_visible properties && (0 <=? offset) && (offset <? total)
         && (0 <? mapped) && (offset + mapped <=? total)
      then ((VK_SUCCESS, Some (mapping offset mapped)), d')
      else ((VK_ERROR_MEMORY_MAP_FAILED, old), d')
  | None => ((VK_ERROR_MEMORY_MAP_FAILED, old), d')
  end.

Definition allocate (info : VkDescriptorSetAllocateInfo) (old : VkDescriptorSet)
           (d : device) : (VkResult * VkDescriptorSet) * device :=
  let d := log (AllocateDescriptorSets info) d in
  if 0 <? free_sets d
  then let '(h, d) := fresh (take_set d) in ((VK_SUCCESS, h), d)
  else ((VK_ERROR_OUT_OF_POOL_MEMORY, VK_NULL_HANDLE), d).

#[global] Instance vulkan : Vulkan device := {|
  vkMapMemory := map_memory;
  vkUnmapMemory memory d := log (UnmapMemory memory) d;
  vkFlushMappedMemoryRanges ranges d :=
    (VK_SUCCESS, log (FlushMappedMemoryRanges ranges) d);
  vkInvalidateMappedMemoryRanges ranges d :=
    (VK_SUCCESS, log (InvalidateMappedMemoryRanges ranges) d);
  vkDestroyBuffer buffer d := log (DestroyBuffer buffer) d;
  vkFreeMemory memory d := log (FreeMemory memory) d;
  createBuffer size usage properties d :=
    let '(buffer, d) := fresh (log (CreateBuffer size usage properties) d) in
    let '(memory, d) := fresh d in
    Ret ((buffer, memory), add_memory memory size properties d);
  vkCreateDescriptorSetLayout bindings d :=
    let '(h, d) := fresh (log (CreateDescriptorSetLayout bindings) d) in
    ((VK_SUCCESS, h), d);
  vkDestroyDescriptorSetLayout layout d := log (DestroyDescriptorSetLayout layout) d;
  vkCreateDescriptorPool info d :=
    let '(h, d) := fresh (log (CreateDescriptorPool info) d) in
    ((VK_SUCCESS, h), d);
  vkDestroyDescriptorPool pool d := log (DestroyDescriptorPool pool) d;
  vkAllocateDescriptorSets := allocate;
  vkFreeDescriptorSets pool sets d := (VK_SUCCESS, log (FreeDescriptorSets pool sets) d);
  vkResetDescriptorPool pool d := (VK_SUCCESS, log (ResetDescriptorPool pool) d);
  vkUpdateDescriptorSets writes d := log (UpdateDescriptorSets writes) d
|}.

(** A device whose pool still holds [n] sets. *)
Definition boot (n : Z) : device :=
  {| calls := []; free_sets := n; next_handle := 1; memories := ∅ |}.

(** *** Objects used in the examples *)

(** Two one-byte elements, host visible, as the constructor leaves them on
    a fresh device. *)
Definition two_bytes : Buffer.t :=
  {| Buffer.m_mapped := nullptr;
     Buffer.m_buffer := 1;
     Buffer.m_memory := 2;
     Buffer.m_bufferSize := 2;
     Buffer.m_instanceCount := 2;
     Buffer.m_instanceSize := 1;
     Buffer.m_alignmentSize := 1;
     Buffer.m_usageFlags := 16;
     Buffer.m_memoryPropertyFlags := 6 |}.

Definition with_two_bytes : device :=
  {| calls := [CreateBuffer 2 16 6]; free_sets := 0; next_handle := 3;
     memories := {[ 2 := (2, 6) ]} |}.

(** Three elements of three bytes at a stride of four, mapped whole. *)
Definition three_padded : Buffer.t :=
  {| Buffer.m_mapped := Some (mapping 0 12);
     Buffer.m_buffer := 1;
     Buffer.m_memory := 2;
     Buffer.m_bufferSize := 12;
     Buffer.m_instanceCount := 3;
     Buffer.m_instanceSize := 3;
     Buffer.m_alignmentSize := 4;
     Buffer.m_usageFlags := 16;
     Buffer.m_memoryPropertyFlags := 6 |}.

Definition zeros (n : nat) : list Byte.byte := replicate n Byte.x00.

(** A layout with a uniform buffer at binding 0 and a combined image
    sampler at binding 1, and a writer with one write for each. *)
Definition two_bindings : gmap Z VkDescriptorSetLayoutBinding :=
  <[0 := {| binding := 0; descriptorType := 6; descriptorCount := 1; stageFlags := 17 |}]>
  (<[1 := {| binding := 1; descriptorType := 1; descriptorCount := 1; stageFlags := 16 |}]> ∅).

Definition layout : Descriptors.DescriptorSetLayout :=
  {| Descriptors.m_descriptorSetLayout := 7; Descriptors.m_bindings := two_bindings |}.

Definition pool : Descriptors.DescriptorPool := {| Descriptors.m_descriptorPool := 9 |}.

Definition buffer_info : VkDescriptorBufferInfo :=
  {| info_buffer := 1; info_offset := 0; info_range := 12 |}.

Definition image_info : VkDescriptorImageInfo :=
  {| info_sampler := 3; info_imageView := 4; info_imageLayout := 5 |}.

Definition buffer_write : VkWriteDescriptorSet :=
  {| dstSet := VK_NULL_HANDLE; dstBinding := 0; write_descriptorType := 6;
     write_descriptorCount := 1; pBufferInfo := Some buffer_info; pImageInfo := None |}.

Definition image_write : VkWriteDescriptorSet :=
  {| dstSet := VK_NULL_HANDLE; dstBinding := 1; write_descriptorType := 1;
     write_descriptorCount := 1; pBufferInfo := None; pImageInfo := Some image_info |}.

Definition writer : Descriptors.DescriptorWriter :=
  {| Descriptors.m_setLayout := layout;
     Descriptors.m_pool := pool;
     Descriptors.m_writes := [buffer_write; image_write] |}.

(** A scene manager before its first build, and a stand-in for the absent
    [createTLAS] that installs a fresh TLAS handle. *)
Definition manager : SceneManager.t :=
  {| SceneManager.m_context := 1;
     SceneManager.m_materialRegistry := 2;
     SceneManager.m_blasRegistry := 3;
     SceneManager.m_tlas := VK_NULL_HANDLE;
     SceneManager.m_tlasBuffer := None;
     SceneManager.m_buildSizeInfo :=
       {| SceneManager.accelerationStructureSize := 0;
          SceneManager.updateScratchSize := 0;
          SceneManager.buildScratchSize := 0 |};
     SceneManager.m_createInfo :=
       {| SceneManager.create_buffer := VK_NULL_HANDLE;
          SceneManager.create_offset := 0;
          SceneManager.create_size := 0;
          SceneManager.create_type := 0 |};
     SceneManager.m_descriptorAllocator := Some 4;
     SceneManager.m_tlasDescriptorSetLayout := Some layout;
     SceneManager.m_tlasDescriptorSet := VK_NULL_HANDLE;
     SceneManager.m_meshInstanceData := [];
     SceneManager.m_meshInstanceDescriptorSetLayout := Some layout;
     SceneManager.m_meshInstanceBuffer := None;
     SceneManager.m_meshInstanceDescriptorSet := VK_NULL_HANDLE |}.

Definition install_tlas (frameInfo : SceneManager.FrameInfo) (s : SceneManager.t)
  : M device SceneManager.t :=
  fun d =>
    let '(h, d) := fresh d in
    Ret ({| SceneManager.m_context := SceneManager.m_context s;
            SceneManager.m_materialRegistry := SceneManager.m_materialRegistry s;
            SceneManager.m_blasRegistry := SceneManager.m_blasRegistry s;
            SceneManager.m_tlas := h;
            SceneManager.m_tlasBuffer := SceneManager.m_tlasBuffer s;
            SceneManager.m_buildSizeInfo := SceneManager.m_buildSizeInfo s;
            SceneManager.m_createInfo := SceneManager.m_createInfo s;
            SceneManager.m_descriptorAllocator := SceneManager.m_descriptorAllocator s;
            SceneManager.m_tlasDescriptorSetLayout :=
              SceneManager.m_tlasDescriptorSetLayout s;
            SceneManager.m_tlasDescriptorSet := SceneManager.m_tlasDescriptorSet s;
            SceneManager.m_meshInstanceData := SceneManager.m_meshInstanceData s;
            SceneManager.m_meshInstanceDescriptorSetLayout :=
              SceneManager.m_meshInstanceDescriptorSetLayout s;
            SceneManager.m_meshInstanceBuffer := SceneManager.m_meshInstanceBuffer s;
            SceneManager.m_meshInstanceDescriptorSet :=
              SceneManager.m_meshInstanceDescriptorSet s |}, d).

(** Three mesh instances with material indices 0, 2, 1 and tiling factors
    1.0, 1.0 and 50.0 (as [float] bit patterns); the tint is opaque white. *)
Definition one : Z := 1065353216.      (* 0x3F800000 *)
Definition fifty : Z := 1112014848.    (* 0x42480000 *)

Definition instance (vertices indices material tiling : Z)
  : MeshInstance.MeshInstanceData :=
  {| MeshInstance.vertexBufferAddress := vertices;
     MeshInstance.indexBufferAddress := indices;
     MeshInstance.materialIndex := material;
     MeshInstance.textureTilingFactor := tiling;
     MeshInstance.textureTintColor := (one, one, one, one) |}.

Definition three_instances : list MeshInstance.MeshInstanceData :=
  [ instance 4096 8192 0 one; instance 12288 16384 2 one; instance 20480 24576 1 fifty ].

End Sim.

(** ** [core/events/event.hpp] *)

Module Events.

(** [enum EventCategory : int], lines 23-32.  [operator|] yields values that
    are no enumerator, so a category is the [int] it stands for. *)
Definition EventCategory := Z.
Definition None_ : EventCategory := 0.
Definition Application : EventCategory := Z.shiftl 1 0.
Definition Input : EventCategory := Z.shiftl 1 1.
Definition Keyboard : EventCategory := Z.shiftl 1 2.
Definition Mouse : EventCategory := Z.shiftl 1 3.
Definition MouseButton : EventCategory := Z.shiftl 1 4.
Definition Window : EventCategory := Z.shiftl 1 5.

(** The six enumerators other than [None]. *)
Definition categories : list EventCategory :=
  [Application; Input; Keyboard; Mouse; MouseButton; Window].

(** [operator|], lines 35-37, and [operator&], lines 39-41. *)
Definition or_ (a b : EventCategory) : EventCategory := Z.lor a b.
Definition and_ (a b : EventCategory) : Z := Z.land a b.

(** [Event::Type], lines 59-84. *)
Inductive Type_ :=
| TypeNone
| WindowClose | WindowResize | WindowMoved | WindowFocus | WindowLostFocus
| AppTick | AppUpdate | AppRender
| KeyPress | KeyRelease | KeyTyped
| MouseButtonPress | MouseButtonRelease | MouseMove | MouseScroll.

#[global] Instance Type_eq_dec : EqDecision Type_.
Proof. solve_decision. Defined.

(** An event object: what its three pure virtual functions return, which is
    fixed by its class, and the two data members of [Event], lines 147-149. *)
Record Event := {
  GetEventType : Type_;
  GetName : string;
  GetCategoryFlags : Z;
  m_handled : bool;
  m_timestamp : Z
}.

(** [ToString], line 108. *)
Definition ToString (e : Event) : string := GetName e.

(** [IsHandled], line 113. *)
Definition IsHandled (e : Event) : bool := m_handled e.

(** [SetHandled], line 119. *)
Definition SetHandled (e : Event) (handled : bool) : Event :=
  {| GetEventType := GetEventType e;
     GetName := GetName e;
     GetCategoryFlags := GetCategoryFlags e;
     m_handled := handled;
     m_timestamp := m_timestamp e |}.

(** [IsInCategory], lines 128-131: the [int] of the bitwise and, converted
    to [bool]. *)
Definition IsInCategory (e : Event) (category : EventCategory) : bool :=
  negb (Z.land (GetCategoryFlags e) category =? 0).

(** [GetTimestamp], line 136. *)
Definition GetTimestamp (e : Event) : Z := m_timestamp e.

Section Dispatcher.

(** What a handler can reach besides the event. *)
Context {S : Type}.

(** [EventDispatcher::Dispatch<T>], lines 199-217, for an event class [T]
    whose [GetStaticType()] is [T].  A handler gets the event and returns a
    [bool]; whatever it does to [m_handled] is overwritten by the
    [SetHandled] that follows, and [Event] has no other member it can
    change.  The result carries the returned [bool], the event and the
    handler's state after the call. *)
Definition Dispatch (T : Type_) (func : Event -> S -> bool * S) (m_event : Event) (s : S)
  : bool * Event * S :=
  if decide (GetEventType m_event = T)
  then
    if negb (IsHandled m_event)
    then let '(handled, s') := func m_event s in (true, SetHandled m_event handled, s')
    else (true, m_event, s)
  else (false, m_event, s).

End Dispatcher.

End Events.

(** ** [model.cpp]: [Model::Builder::loadModel] *)

Module Model.

(** The [uint32_t] that [static_cast<uint32_t>] yields. *)
Definition wrap32 (x : Z) : Z := x mod 2 ^ 32.

(** Running a fallible step and going on with its result. *)
Definition and_then {A B} (o : outcome A) (k : A -> outcome B) : outcome B :=
  match o with
  | Ret a => k a
  | AssertionFailed msg => AssertionFailed msg
  | Thrown msg => Thrown msg
  | Undefined => Undefined
  end.

Notation "'let!' x ':=' o 'in' k" := (and_then o (fun x => k))
  (at level 10, x name, o at level 99, k at level 200).

Section WithFloat.

(** A [float] is opaque here: the loader moves floats around, compares
    vertices and computes [1.0f - v].  Vertices are compared as values. *)
Context {F : Type} `{Countable F}.
Variable zero : F.
Variable one_minus : F -> F.

(** [Model::Vertex], as [loadModel] and [getAttributeDescriptions] use it. *)
Record Vertex := {
  position : F * F * F;
  color : F * F * F;
  normal : F * F * F;
  uv : F * F
}.

Definition Vertex_fields (v : Vertex) : F * F * F * (F * F * F) * (F * F * F) * (F * F) :=
  (position v, color v, normal v, uv v).

Definition Vertex_of_fields (t : F * F * F * (F * F * F) * (F * F * F) * (F * F)) : Vertex :=
  let '(p, c, n, u) := t in {| position := p; color := c; normal := n; uv := u |}.

#[global] Instance Vertex_eq_dec : EqDecision Vertex.
Proof. solve_decision. Defined.

#[global] Instance Vertex_countable : Countable Vertex.
Proof.
  apply (inj_countable' Vertex_fields Vertex_of_fields).
  intros [p c n u]. reflexivity.
Defined.

(** [tinyobj::index_t], [tinyobj::attrib_t] and the [mesh.indices] of a
    [tinyobj::shape_t], as far as the loader reads them. *)
Record index_t := {
  vertex_index : Z;
  normal_index : Z;
  texcoord_index : Z
}.

Record attrib_t := {
  attrib_vertices : list F;
  attrib_normals : list F;
  attrib_texcoords : list F;
  attrib_colors : list F
}.

Record shape_t := {
  mesh_indices : list index_t
}.

(** [l[k * i + j]] for an [int] index [i >= 0]: the [int] arithmetic must
    not overflow and the element must exist. *)
Definition element (l : list F) (k i j : Z) : outcome F :=
  let at_ := k * i + j in
  if at_ <? 2 ^ 31
  then match l !! Z.to_nat at_ with
       | Some x => Ret x
       | None => Undefined
       end
  else Undefined.

Definition element3 (l : list F) (i : Z) : outcome (F * F * F) :=
  let! a := element l 3 i 0 in
  let! b := element l 3 i 1 in
  let! c := element l 3 i 2 in
  Ret (a, b, c).

(** The body of the inner loop up to the look-up, lines 143-177. *)
Definition make_vertex (attrib : attrib_t) (index : index_t) : outcome Vertex :=
  let vertex :=
    {| position := (zero, zero, zero); color := (zero, zero, zero);
       normal := (zero, zero, zero); uv := (zero, zero) |} in
  let! vertex :=
    if 0 <=? vertex_index index
    then
      let! p := element3 (attrib_vertices attrib) (vertex_index index) in
      let! c := element3 (attrib_colors attrib) (vertex_index index) in
      Ret {| position := p; color := c; normal := normal vertex; uv := uv vertex |}
    else Ret vertex in
  let! vertex :=
    if 0 <=? normal_index index
    then
      let! n := element3 (attrib_normals attrib) (normal_index index) in
      Ret {| position := position vertex; color := color vertex; normal := n;
             uv := uv vertex |}
    else Ret vertex in
  if 0 <=? texcoord_index index
  then
    let! s := element (attrib_texcoords attrib) 2 (texcoord_index index) 0 in
    let! t := element (attrib_texcoords attrib) 2 (texcoord_index index) 1 in
    Ret {| position := position vertex; color := color vertex; normal := normal vertex;
           uv := (s, one_minus t) |}
  else Ret vertex.

(** The builder's two vectors and the local [uniqueVertices]. *)
Record loading := {
  uniqueVertices : gmap Vertex Z;
  vertices : list Vertex;
  indices : list Z
}.

Definition start : loading :=
  {| uniqueVertices := ∅; vertices := []; indices := [] |}.

(** Lines 179-183: a vertex not seen before gets the next position and is
    appended; the position found for the vertex is appended to the indices.
    [uniqueVertices[vertex]] would insert 0 for a missing key. *)
Definition add_vertex (st : loading) (vertex : Vertex) : loading :=
  let st :=
    match uniqueVertices st !! vertex with
    | None =>
        {| uniqueVertices :=
             <[vertex := wrap32 (zlen (vertices st))]> (uniqueVertices st);
           vertices := vertices st ++ [vertex];
           indices := indices st |}
    | Some _ => st
    end in
  match uniqueVertices st !! vertex with
  | Some i =>
      {| uniqueVertices := uniqueVertices st;
         vertices := vertices st;
         indices := indices st ++ [i] |}
  | None =>
      {| uniqueVertices := <[vertex := 0]> (uniqueVertices st);
         vertices := vertices st;
         indices := indices st ++ [0] |}
  end.

(** The inner loop, lines 142-184. *)
Fixpoint load_indices (attrib : attrib_t) (idxs : list index_t) (st : loading)
  : outcome loading :=
  match idxs with
  | [] => Ret st
  | index :: rest =>
      let! vertex := make_vertex attrib index in
      load_indices attrib rest (add_vertex st vertex)
  end.

(** The outer loop, lines 141-185. *)
Fixpoint load_shapes (attrib : attrib_t) (shapes : list shape_t) (st : loading)
  : outcome loading :=
  match shapes with
  | [] => Ret st
  | shape :: rest =>
      let! st := load_indices attrib (mesh_indices shape) st in
      load_shapes attrib rest st
  end.

(** [Model::Builder]. *)
Record Builder := {
  builder_vertices : list Vertex;
  builder_indices : list Z
}.

(** What [tinyobj::LoadObj] leaves behind: its [bool], the attributes, the
    shapes, and the two messages. *)
Record loaded := {
  load_ok : bool;
  load_attrib : attrib_t;
  load_shapes_ : list shape_t;
  load_warn : string;
  load_err : string
}.

(** [tinyobj::LoadObj] reads the file; it is a parameter. *)
Variable LoadObj : string -> loaded.

(** [Model::Builder::loadModel], lines 127-186. *)
Definition loadModel (builder : Builder) (filepath : string) : outcome Builder :=
  let obj := LoadObj filepath in
  if negb (load_ok obj)
  then Thrown (load_warn obj ++ load_err obj)
  else
    let! st := load_shapes (load_attrib obj) (load_shapes_ obj) start in
    Ret {| builder_vertices := vertices st; builder_indices := indices st |}.

End WithFloat.

End Model.

(** ** What the loop of [loadModel] keeps true *)

Module LoaderInvariant.

Import Model.

(** The map and the vector of vertices describe each other: the vector has
    no vertex twice, fits the 32 bits of an index, and the map sends a vertex
    to [i] exactly when the vertex is element [i] of the vector. *)
Definition consistent {F : Type} `{Countable F} (st : loading (F := F)) : Prop :=
  NoDup (vertices st) /\
  zlen (vertices st) <= 2 ^ 32 /\
  forall (v : Vertex (F := F)) (i : Z),
    uniqueVertices st !! v = Some i <->
    0 <= i /\ vertices st !! Z.to_nat i = Some v.

(** The distinct elements of a list, each at the place of its first
    occurrence. *)
Definition first_occurrences {A : Type} `{EqDecision A} (l : list A) : list A :=
  reverse (remove_dups (reverse l)).

End LoaderInvariant.

(** ** What the writer of [descriptors.cpp] keeps true *)

Module WriterInvariant.

Import Descriptors.

(** A pending write agrees with the layout: it names a binding that the
    layout declares with a single descriptor, and carries that binding's
    descriptor type and a count of one. *)
Definition conforms (layout : DescriptorSetLayout) (write : VkWriteDescriptorSet) : Prop :=
  exists description,
    m_bindings layout !! dstBinding write = Some description /\
    descriptorCount description = 1 /\
    write_descriptorType write = descriptorType description /\
    write_descriptorCount write = 1.

(** The writers that calls of the member functions can produce from a writer
    just constructed for [layout] and [pool]. *)
Inductive reachable (layout : DescriptorSetLayout) (pool : DescriptorPool)
  : DescriptorWriter -> Prop :=
| reach_new : reachable layout pool (newWriter layout pool)
| reach_writeBuffer w binding bufferInfo w' :
    reachable layout pool w ->
    writeBuffer w binding bufferInfo = Ret w' ->
    reachable layout pool w'
| reach_writeImage w binding imageInfo w' :
    reachable layout pool w ->
    writeImage w binding imageInfo = Ret w' ->
    reachable layout pool w'
| reach_overwrite (D : Type) (V : Vulkan D) w set (d d' : D) w' :
    reachable layout pool w ->
    overwrite w set d = Ret (w', d') ->
    reachable layout pool w'
| reach_build (D : Type) (V : Vulkan D) w set (d d' : D) success w' set' :
    reachable layout pool w ->
    build w set d = Ret ((success, w', set'), d') ->
    reachable layout pool w'.

End WriterInvariant.

(** ** Chains of calls on a [DescriptorPool::Builder] *)

Module PoolChain.

Import Descriptors.

(** One call of the fluent interface, lines 60-74; each returns [*this]. *)
Inductive setter :=
| AddPoolSize (descriptorType count : Z)
| SetPoolFlags (flags : Z)
| SetMaxSets (count : Z).

Definition apply_setter (bld : PoolBuilder) (s : setter) : PoolBuilder :=
  match s with
  | AddPoolSize descriptorType count => addPoolSize bld descriptorType count
  | SetPoolFlags flags => setPoolFlags bld flags
  | SetMaxSets count => setMaxSets bld count
  end.

(** [builder.s1(..).s2(..)...]. *)
Definition chain (bld : PoolBuilder) (calls : list setter) : PoolBuilder :=
  foldl apply_setter bld calls.

Definition added (s : setter) : option VkDescriptorPoolSize :=
  match s with
  | AddPoolSize descriptorType count =>
      Some {| pool_type := descriptorType; pool_descriptorCount := count |}
  | _ => None
  end.

Definition flags_set (s : setter) : option Z :=
  match s with SetPoolFlags flags => Some flags | _ => None end.

Definition max_set (s : setter) : option Z :=
  match s with SetMaxSets count => Some count | _ => None end.

End PoolChain.

(** ** Further objects for the examples *)

Module Samples.

(** The simulated device after a buffer of three elements of three bytes,
    aligned to four, was built on it. *)
Definition with_three_padded : Sim.device :=
  {| Sim.calls := [Sim.CreateBuffer 12 16 6]; Sim.free_sets := 0; Sim.next_handle := 3;
     Sim.memories := {[ 2 := (12, 6) ]} |}.


(** A mouse button press that nobody has handled yet, and two handlers that
    count their calls: one takes the event, the other passes. *)
Definition press : Events.Event :=
  {| Events.GetEventType := Events.MouseButtonPress;
     Events.GetName := "MouseButtonPress";
     Events.GetCategoryFlags :=
       Events.or_ Events.MouseButton (Events.or_ Events.Mouse Events.Input);
     Events.m_handled := false;
     Events.m_timestamp := 0 |}.

Definition taking (e : Events.Event) (calls : nat) : bool * nat := (true, S calls).
Definition passing (e : Events.Event) (calls : nat) : bool * nat := (false, S calls).

(** A square of two triangles that share an edge: four positions and
    colours, one normal, four texture coordinates; floats are stood for by
    integers and [1.0f - v] by [1 - v]. *)
Definition corner (v : Z) : Model.index_t :=
  {| Model.vertex_index := v; Model.normal_index := 0; Model.texcoord_index := v |}.

Definition square : Model.loaded (F := Z) :=
  {| Model.load_ok := true;
     Model.load_attrib :=
       {| Model.attrib_vertices := [0; 0; 0;  1; 0; 0;  1; 1; 0;  0; 1; 0];
          Model.attrib_normals := [0; 0; 1];
          Model.attrib_texcoords := [0; 0;  1; 0;  1; 1;  0; 1];
          Model.attrib_colors := [9; 9; 9;  9; 9; 9;  9; 9; 9;  9; 9; 9] |};
     Model.load_shapes_ :=
       [ {| Model.mesh_indices := [corner 0; corner 1; corner 2] |};
         {| Model.mesh_indices := [corner 0; corner 2; corner 3] |} ];
     Model.load_warn := "";
     Model.load_err := "" |}.

Definition square_corner (x y : Z) : Model.Vertex (F := Z) :=
  {| Model.position := (x, y, 0); Model.color := (9, 9, 9);
     Model.normal := (0, 0, 1); Model.uv := (x, 1 - y) |}.

(** The vertices the loop builds for the six corners, in order. *)
Definition square_built : list (Model.Vertex (F := Z)) :=
  [ square_corner 0 0; square_corner 1 0; square_corner 1 1;
    square_corner 0 0; square_corner 1 1; square_corner 0 1 ].

Definition load_square (filepath : string) : Model.loaded (F := Z) := square.

Definition empty_builder : Model.Builder (F := Z) :=
  {| Model.builder_vertices := []; Model.builder_indices := [] |}.

(** A builder left over from an earlier load. *)
Definition used_builder : Model.Builder (F := Z) :=
  {| Model.builder_vertices := [square_corner 5 5]; Model.builder_indices := [0; 0; 0] |}.

(** The same six corners in a single shape. *)
Definition strip : Model.loaded (F := Z) :=
  {| Model.load_ok := true;
     Model.load_attrib := Model.load_attrib square;
     Model.load_shapes_ :=
       [ {| Model.mesh_indices :=
              [corner 0; corner 1; corner 2; corner 0; corner 2; corner 3] |} ];
     Model.load_warn := "";
     Model.load_err := "" |}.

Definition load_strip (filepath : string) : Model.loaded (F := Z) := strip.

(** The square followed by a triangle whose last corner names a fifth
    position that the file does not have. *)
Definition torn_shape : Model.shape_t :=
  {| Model.mesh_indices := [corner 0; corner 1; corner 4] |}.

Definition torn : Model.loaded (F := Z) :=
  {| Model.load_ok := true;
     Model.load_attrib := Model.load_attrib square;
     Model.load_shapes_ := [ {| Model.mesh_indices := [corner 0; corner 1; corner 2] |};
                             torn_shape ];
     Model.load_warn := "";
     Model.load_err := "" |}.

Definition load_torn (filepath : string) : Model.loaded (F := Z) := torn.

End Samples.

(** * Properties *)

(** ** 64-bit arithmetic *)

Section IntFacts.
Import Int.

Lemma modulus64_eq : modulus64 = 18446744073709551616.
Proof. reflexivity. Qed.

Lemma wrap64_small x : 0 <= x < modulus64 -> wrap64 x = x.
Proof. intros Hx. unfold wrap64. apply Z.mod_small. exact Hx. Qed.

Lemma wrap64_range x : 0 <= wrap64 x < modulus64.
Proof. unfold wrap64. apply Z.mod_pos_bound. rewrite modulus64_eq. lia. Qed.

Lemma wrap64_land x : wrap64 x = Z.land x (Z.ones 64).
Proof. unfold wrap64, modulus64. rewrite Z.land_ones by lia. reflexivity. Qed.

Lemma VK_WHOLE_SIZE_eq : VK_WHOLE_SIZE = modulus64 - 1.
Proof. reflexivity. Qed.

(** [x + a - 1] computed as the source does, when nothing wraps. *)
Lemma add_sub64_small s a :
  0 <= s + a - 1 < modulus64 ->
  sub64 (add64 s a) 1 = s + a - 1.
Proof.
  intros Hr. unfold sub64, add64, wrap64.
  rewrite Zminus_mod_idemp_l. apply Z.mod_small. exact Hr.
Qed.

Lemma land_le_r x m : 0 <= m -> Z.land x m <= m.
Proof.
  intros Hm.
  assert (0 <= Z.land m (Z.lnot x)) as Hd by (apply Z.land_nonneg; left; exact Hm).
  rewrite <- Z.sub_land_same_l in Hd. rewrite (Z.land_comm x m). lia.
Qed.

(** Masking with a complemented 64-bit operand clears the bits of the
    operand. *)
Lemma and_not64 x m :
  0 <= x < modulus64 ->
  and64 x (not64 m) = x - Z.land x m.
Proof.
  intros Hx. unfold and64, not64.
  rewrite wrap64_land, (Z.land_comm (Z.lnot m)), Z.land_assoc.
  rewrite <- wrap64_land, (wrap64_small x Hx).
  symmetry. apply Z.sub_land_same_l.
Qed.

End IntFacts.

(** ** [Buffer::getAlignment] *)

Section GetAlignment.
Import Int Buffer.

Lemma getAlignment_zero s : getAlignment s 0 = s.
Proof. reflexivity. Qed.

(** Without wrap-around the result is [x - (x & (a - 1))] for
    [x = s + a - 1]. *)
Lemma getAlignment_unfold s a :
  0 < a -> 0 <= s -> s + a <= modulus64 ->
  getAlignment s a = (s + a - 1) - Z.land (s + a - 1) (a - 1).
Proof.
  intros Ha Hs Hsum. unfold getAlignment.
  assert ((0 <? a) = true) as -> by (apply Z.ltb_lt; exact Ha).
  rewrite add_sub64_small by lia.
  assert (sub64 a 1 = a - 1) as -> by (apply wrap64_small; lia).
  apply and_not64. lia.
Qed.

(** The result never falls below the instance size, whatever the
    alignment, as long as the sum does not wrap. *)
Lemma getAlignment_bounds s a :
  0 < a -> 0 <= s -> s + a <= modulus64 ->
  s <= getAlignment s a <= s + a - 1.
Proof.
  intros Ha Hs Hsum. rewrite getAlignment_unfold by assumption.
  pose proof (land_le_r (s + a - 1) (a - 1)) as Hle.
  assert (0 <= Z.land (s + a - 1) (a - 1)) by (apply Z.land_nonneg; left; lia).
  lia.
Qed.

(** For a power of two the result is the next multiple. *)
Lemma getAlignment_pow2 s k :
  0 <= k -> 0 <= s -> s + 2 ^ k <= modulus64 ->
  getAlignment s (2 ^ k) = 2 ^ k * ((s + 2 ^ k - 1) / 2 ^ k).
Proof.
  intros Hk Hs Hsum.
  assert (0 < 2 ^ k) as Hpos by (apply Z.pow_pos_nonneg; lia).
  rewrite getAlignment_unfold by assumption.
  replace (2 ^ k - 1) with (Z.ones k) by (rewrite Z.ones_equiv; lia).
  rewrite Z.land_ones by exact Hk.
  pose proof (Z.div_mod (s + 2 ^ k - 1) (2 ^ k)) as Hdm. lia.
Qed.

Lemma getAlignment_pow2_multiple s k :
  0 <= k -> 0 <= s -> s + 2 ^ k <= modulus64 ->
  getAlignment s (2 ^ k) mod 2 ^ k = 0.
Proof.
  intros Hk Hs Hsum. rewrite getAlignment_pow2 by assumption.
  rewrite Z.mul_comm. apply Z.mod_mul.
  assert (0 < 2 ^ k) by (apply Z.pow_pos_nonneg; lia). lia.
Qed.

End GetAlignment.

(** C3, as stated, fails at the top of the 64-bit range: for
    [instanceSize = 2^64 - 1] and [minOffsetAlignment = 4] the sum
    [instanceSize + 3] wraps to 2 and the result is 0, which is below the
    instance size. *)
Lemma getAlignment_wraps_below_instance_size :
  0 < 2 ^ 64 - 1 < Int.modulus64 /\
  In 4 [0; 1; 4; 16; 256] /\
  Buffer.getAlignment (2 ^ 64 - 1) 4 = 0 /\
  ~ (Buffer.getAlignment (2 ^ 64 - 1) 4 >= 2 ^ 64 - 1).
Proof.
  split; [rewrite modulus64_eq; lia |].
  split; [simpl; tauto |].
  split; [reflexivity |].
  assert (Buffer.getAlignment (2 ^ 64 - 1) 4 = 0) as -> by reflexivity. lia.
Qed.

(** C3 (amended): for every [instanceSize > 0] and every
    [minOffsetAlignment] among 0, 1, 4, 16 and 256 such that
    [instanceSize + minOffsetAlignment] does not exceed [2^64] (so that
    [instanceSize + minOffsetAlignment - 1] does not wrap around in
    [VkDeviceSize]), [getAlignment] returns a value that is at least
    [instanceSize] and a multiple of [minOffsetAlignment] when
    [minOffsetAlignment > 0], and returns [instanceSize] itself when
    [minOffsetAlignment = 0]. *)
Theorem getAlignment_aligned (instanceSize minOffsetAlignment : Z) :
  0 < instanceSize ->
  instanceSize + minOffsetAlignment <= Int.modulus64 ->
  In minOffsetAlignment [0; 1; 4; 16; 256] ->
  let alignmentSize := Buffer.getAlignment instanceSize minOffsetAlignment in
  (0 < minOffsetAlignment ->
     alignmentSize >= instanceSize /\ alignmentSize mod minOffsetAlignment = 0) /\
  (minOffsetAlignment = 0 -> alignmentSize = instanceSize).
Proof.
  intros Hs Hsum Hin alignmentSize. subst alignmentSize. split.
  - intros Ha. split.
    + pose proof (getAlignment_bounds instanceSize minOffsetAlignment) as Hb. lia.
    + simpl in Hin.
      destruct Hin as [<- | [<- | [<- | [<- | [<- | []]]]]]; try lia.
      * apply (getAlignment_pow2_multiple instanceSize 0); simpl; lia.
      * apply (getAlignment_pow2_multiple instanceSize 2); simpl; lia.
      * apply (getAlignment_pow2_multiple instanceSize 4); simpl; lia.
      * apply (getAlignment_pow2_multiple instanceSize 8); simpl; lia.
  - intros ->. reflexivity.
Qed.

Lemma getAlignment_aligned_witness :
  let alignmentSize := Buffer.getAlignment 200 16 in
  (0 < 16 -> alignmentSize >= 200 /\ alignmentSize mod 16 = 0) /\
  (16 = 0 -> alignmentSize = 200).
Proof.
  apply (getAlignment_aligned 200 16).
  - lia.
  - rewrite modulus64_eq. lia.
  - simpl. tauto.
Defined.

(** ** Storing bytes and reading them back *)

Section Memory.

Implicit Types mem src : list Byte.byte.

Lemma splice_lookup mem src (d n k : nat) :
  (d + n <= length mem)%nat -> (n <= length src)%nat ->
  (take d mem ++ take n src ++ drop (d + n) mem) !! k =
  if decide (d <= k < d + n)%nat then src !! (k - d)%nat else mem !! k.
Proof.
  intros Hmem Hsrc.
  assert (length (take d mem) = d) as Hld by (rewrite length_take; lia).
  assert (length (take n src) = n) as Hln by (rewrite length_take; lia).
  destruct (decide (k < d)%nat) as [Hlt | Hge].
  - rewrite lookup_app_l by lia. rewrite lookup_take_lt by lia.
    case_decide; [lia | reflexivity].
  - rewrite lookup_app_r by lia. rewrite Hld.
    destruct (decide (k < d + n)%nat) as [Hin | Hout].
    + rewrite lookup_app_l by lia. rewrite lookup_take_lt by lia.
      case_decide; [reflexivity | lia].
    + rewrite lookup_app_r by lia. rewrite Hln, lookup_drop.
      case_decide; [lia | f_equal; lia].
Qed.

Lemma store_bytes_inv mem dst src n mem' :
  store_bytes mem dst src n = Ret mem' ->
  0 <= dst /\ 0 <= n /\ dst + n <= zlen mem /\ n <= zlen src /\
  mem' = take (Z.to_nat dst) mem ++ take (Z.to_nat n) src
         ++ drop (Z.to_nat (dst + n)) mem.
Proof.
  unfold store_bytes. intros Hc.
  destruct (0 <=? dst) eqn:H1; [| discriminate].
  destruct (0 <=? n) eqn:H2; [| discriminate].
  destruct (dst + n <=? zlen mem) eqn:H3; [| discriminate].
  destruct (n <=? zlen src) eqn:H4; [| discriminate].
  simpl in Hc. injection Hc as <-.
  apply Z.leb_le in H1, H2, H3, H4. repeat split; assumption.
Qed.

Lemma store_bytes_Ret mem dst src n :
  0 <= dst -> 0 <= n -> dst + n <= zlen mem -> n <= zlen src ->
  store_bytes mem dst src n =
  Ret (take (Z.to_nat dst) mem ++ take (Z.to_nat n) src
       ++ drop (Z.to_nat (dst + n)) mem).
Proof.
  intros H1 H2 H3 H4. unfold store_bytes.
  apply Z.leb_le in H1, H2, H3, H4. rewrite H1, H2, H3, H4. reflexivity.
Qed.

Lemma store_bytes_never_asserts mem dst src n :
  is_assertion_failure (store_bytes mem dst src n) = false.
Proof. unfold store_bytes. destruct (_ && _); reflexivity. Qed.

Lemma store_bytes_lookup mem dst src n mem' (k : nat) :
  store_bytes mem dst src n = Ret mem' ->
  mem' !! k =
  if decide (Z.to_nat dst <= k < Z.to_nat dst + Z.to_nat n)%nat
  then src !! (k - Z.to_nat dst)%nat else mem !! k.
Proof.
  intros Hc. apply store_bytes_inv in Hc as (H1 & H2 & H3 & H4 & ->).
  unfold zlen in H3, H4.
  replace (Z.to_nat (dst + n)) with (Z.to_nat dst + Z.to_nat n)%nat by lia.
  apply splice_lookup; lia.
Qed.

Lemma store_bytes_length mem dst src n mem' :
  store_bytes mem dst src n = Ret mem' -> length mem' = length mem.
Proof.
  intros Hc. apply store_bytes_inv in Hc as (H1 & H2 & H3 & H4 & ->).
  unfold zlen in H3, H4.
  rewrite !length_app, !length_take, length_drop. lia.
Qed.

Lemma read_range_lookup mem off len (k : nat) :
  read_range mem off len !! k =
  if decide (k < Z.to_nat len)%nat then mem !! (Z.to_nat off + k)%nat else None.
Proof.
  unfold read_range. rewrite lookup_take.
  case_decide; [apply lookup_drop | reflexivity].
Qed.

(** The bytes copied are found where they were put. *)
Lemma store_bytes_read_written mem dst src n mem' :
  store_bytes mem dst src n = Ret mem' ->
  read_range mem' dst n = take (Z.to_nat n) src.
Proof.
  intros Hc. apply list_eq. intros k.
  rewrite read_range_lookup, (store_bytes_lookup _ _ _ _ _ _ Hc), lookup_take.
  repeat case_decide; try lia; try reflexivity.
  f_equal. lia.
Qed.

(** A range that does not meet the destination keeps its bytes. *)
Lemma store_bytes_read_outside mem dst src n mem' off len :
  store_bytes mem dst src n = Ret mem' ->
  0 <= off -> 0 <= len ->
  off + len <= dst \/ dst + n <= off ->
  read_range mem' off len = read_range mem off len.
Proof.
  intros Hc Hoff Hlen Hdisj. apply list_eq. intros k.
  pose proof (store_bytes_inv _ _ _ _ _ Hc) as (H1 & H2 & _).
  rewrite !read_range_lookup, (store_bytes_lookup _ _ _ _ _ _ Hc).
  repeat case_decide; try lia; reflexivity.
Qed.

(** A range that starts at the destination and is at least as long begins
    with the bytes copied and keeps its other bytes. *)
Lemma store_bytes_read_slot mem dst src n mem' len :
  store_bytes mem dst src n = Ret mem' ->
  n <= len ->
  read_range mem' dst len =
  take (Z.to_nat n) src ++ drop (Z.to_nat n) (read_range mem dst len).
Proof.
  intros Hc Hlen. apply list_eq. intros k.
  pose proof (store_bytes_inv _ _ _ _ _ Hc) as (H1 & H2 & H3 & H4 & _).
  unfold zlen in H3, H4.
  assert (length (take (Z.to_nat n) src) = Z.to_nat n) as Hln
    by (rewrite length_take; lia).
  rewrite read_range_lookup, (store_bytes_lookup _ _ _ _ _ _ Hc).
  destruct (decide (k < Z.to_nat n)%nat) as [Hk | Hk].
  - rewrite lookup_app_l by lia. rewrite lookup_take_lt by lia.
    repeat case_decide; try lia. f_equal. lia.
  - rewrite lookup_app_r by lia. rewrite Hln, lookup_drop, read_range_lookup.
    repeat case_decide; try lia; try reflexivity.
    f_equal. lia.
Qed.

(** Outside the destination no byte changes. *)
Lemma store_bytes_lookup_outside mem dst src n mem' (k : nat) :
  store_bytes mem dst src n = Ret mem' ->
  Z.of_nat k < dst \/ dst + n <= Z.of_nat k ->
  mem' !! k = mem !! k.
Proof.
  intros Hc Hk.
  pose proof (store_bytes_inv _ _ _ _ _ Hc) as (H1 & H2 & _).
  rewrite (store_bytes_lookup _ _ _ _ _ _ Hc). case_decide; [lia | reflexivity].
Qed.

(** [memcpy] through a pointer that stays inside its range is a store at
    the address of the pointer. *)
Lemma memcpy_store mem dst src n :
  0 <= position dst -> position dst + n <= region_size dst ->
  memcpy mem dst src n = store_bytes mem (address dst) src n.
Proof.
  intros H1 H2. unfold memcpy.
  apply Z.leb_le in H1, H2. rewrite H1, H2. reflexivity.
Qed.

Lemma memcpy_never_asserts mem dst src n :
  is_assertion_failure (memcpy mem dst src n) = false.
Proof.
  unfold memcpy. destruct (_ && _); [apply store_bytes_never_asserts | reflexivity].
Qed.

End Memory.

(** ** The buffer *)

Section BufferFacts.
Import Int Buffer.
Context {D : Type} `{Vulkan D}.

Lemma store_bytes_copied mem dst src n :
  0 <= dst -> 0 <= n -> dst + n <= zlen mem -> n <= zlen src ->
  exists mem', store_bytes mem dst src n = Ret mem' /\ copied mem mem' dst src n.
Proof.
  intros H1 H2 H3 H4. eexists. split; [apply store_bytes_Ret; assumption |].
  pose proof (store_bytes_Ret mem dst src n H1 H2 H3 H4) as Hc.
  split; [exact (store_bytes_length _ _ _ _ _ Hc) |].
  split; [exact (store_bytes_read_written _ _ _ _ _ Hc) |].
  intros k Hk. exact (store_bytes_lookup_outside _ _ _ _ _ _ Hc Hk).
Qed.

(** A copy that stays inside the range of the pointer, and inside the
    source, returns and leaves the bytes at the address of the pointer. *)
Lemma memcpy_copied mem dst src n :
  in_memory mem dst -> 0 <= n ->
  position dst + n <= region_size dst -> n <= zlen src ->
  exists mem', memcpy mem dst src n = Ret mem' /\ copied mem mem' (address dst) src n.
Proof.
  intros (H1 & H2 & H3) Hn Hfit Hsrc.
  rewrite memcpy_store by assumption.
  apply store_bytes_copied; unfold address; lia.
Qed.

(** The constructor computes the stride and the total size once. *)
Lemma new_sizes instanceSize instanceCount usageFlags memoryPropertyFlags
      minOffsetAlignment (d d' : D) b :
  new instanceSize instanceCount usageFlags memoryPropertyFlags minOffsetAlignment d
    = Ret (b, d') ->
  m_mapped b = None /\
  m_instanceSize b = instanceSize /\
  m_instanceCount b = instanceCount /\
  m_alignmentSize b = getAlignment instanceSize minOffsetAlignment /\
  m_bufferSize b = mul64 (getAlignment instanceSize minOffsetAlignment) instanceCount /\
  0 <= m_bufferSize b < modulus64.
Proof.
  unfold new, bind, ret. intros Hnew.
  destruct (createBuffer _ _ _ d) as [[[buffer memory] d1] | | |]; try discriminate.
  injection Hnew as <- <-. simpl. repeat split; apply wrap64_range.
Qed.

(** [map] touches no field but [m_mapped]. *)
Lemma map_sizes b size offset (d d' : D) res b' :
  map b size offset d = Ret ((res, b'), d') ->
  b' = set_mapped b (m_mapped b').
Proof.
  unfold map, bind, assert, call, ret. intros Hmap.
  destruct (_ && _); [| discriminate].
  destruct (vkMapMemory _ _ _ _ d) as [[res1 p] d1].
  injection Hmap as <- <- <-. reflexivity.
Qed.

Lemma index_offset (i a : Z) :
  0 <= i * a < modulus64 -> mul64 (int_to_u64 i) a = i * a.
Proof.
  intros Hr. unfold mul64, int_to_u64, wrap64.
  rewrite Zmult_mod_idemp_l. apply Z.mod_small. exact Hr.
Qed.

End BufferFacts.

(** C6, as stated, fails for a buffer whose mapping is shorter than the
    buffer.  On a buffer of two one-byte elements [map(1, 1)] succeeds and
    leaves [m_mapped] pointing at a mapped range of one byte.
    [writeToBuffer] with [VK_WHOLE_SIZE] then asks [memcpy] for
    [m_bufferSize], which is two bytes, at [m_mapped]: the copy runs past
    the end of the mapped range, so no copy of [m_bufferSize] bytes into
    the mapped region takes place. *)
Lemma writeToBuffer_whole_size_overruns_partial_mapping :
  let b := Buffer.set_mapped Sim.two_bytes (Some (mapping 1 1)) in
  let data := [Byte.xaa; Byte.xbb] in
  let mem := [Byte.x00; Byte.x00] in
  Buffer.new 1 2 16 6 1 (Sim.boot 0) = Ret (Sim.two_bytes, Sim.with_two_bytes) /\
  Buffer.map Sim.two_bytes 1 1 Sim.with_two_bytes
    = Ret ((VK_SUCCESS, b), Sim.log (Sim.MapMemory 2 1 1) Sim.with_two_bytes) /\
  Buffer.m_bufferSize b = Buffer.m_alignmentSize b * Buffer.m_instanceCount b /\
  Buffer.m_bufferSize b = zlen data /\
  Buffer.writeToBuffer b data VK_WHOLE_SIZE 0 mem = Undefined /\
  ~ (exists mem', Buffer.writeToBuffer b data VK_WHOLE_SIZE 0 mem = Ret mem' /\
                  copied mem mem' (address (mapping 1 1)) data (Buffer.m_bufferSize b)).
Proof.
  cbv zeta. repeat split.
  intros (mem' & Hcall & _). discriminate Hcall.
Qed.

(** C6 (amended): take a buffer as the constructor left it, with a product
    [m_alignmentSize * m_instanceCount] that does not wrap around in 64
    bits, and with [m_mapped] pointing into a mapped range of its memory
    ([map] and [unmap] change no other field).  Then [m_bufferSize] is that
    product.  [writeToBuffer] with [VK_WHOLE_SIZE] as size copies
    [m_bufferSize] bytes of [data] to the byte [m_mapped] points at,
    whatever the [offset] argument is, provided the mapped range has room
    for them and [data] holds that many; when the mapped range has no room
    for them the copy runs past its end.  With any other size it copies
    exactly [size] bytes to [offset] bytes past [m_mapped], provided these
    lie inside the mapped range and [data] holds [size] bytes.  Every byte
    outside the range copied to is as before. *)
Theorem writeToBuffer_whole_or_range
        {D : Type} `{Vulkan D}
        (instanceSize instanceCount usageFlags memoryPropertyFlags minOffsetAlignment : Z)
        (d d' : D) (constructed : Buffer.t)
        (mapped : pointer) (data mem : list Byte.byte) :
  Buffer.new instanceSize instanceCount usageFlags memoryPropertyFlags minOffsetAlignment d
    = Ret (constructed, d') ->
  0 <= Buffer.getAlignment instanceSize minOffsetAlignment * instanceCount < Int.modulus64 ->
  in_memory mem mapped ->
  let b := Buffer.set_mapped constructed (Some mapped) in
  let bufferSize := Buffer.m_alignmentSize b * Buffer.m_instanceCount b in
  Buffer.m_bufferSize b = bufferSize /\
  (forall offset,
     position mapped + bufferSize <= region_size mapped ->
     bufferSize <= zlen data ->
     exists mem',
       Buffer.writeToBuffer b data VK_WHOLE_SIZE offset mem = Ret mem' /\
       copied mem mem' (address mapped) data bufferSize) /\
  (forall offset,
     region_size mapped < position mapped + bufferSize ->
     Buffer.writeToBuffer b data VK_WHOLE_SIZE offset mem = Undefined) /\
  (forall size offset,
     size <> VK_WHOLE_SIZE ->
     0 <= size -> 0 <= offset ->
     position mapped + offset + size <= region_size mapped ->
     size <= zlen data ->
     exists mem',
       Buffer.writeToBuffer b data size offset mem = Ret mem' /\
       copied mem mem' (address mapped + offset) data size).
Proof.
  intros Hnew Hproduct Hin b bufferSize.
  destruct (new_sizes _ _ _ _ _ _ _ _ Hnew) as (_ & _ & Hcount & Hstride & Hsize & _).
  assert (Buffer.m_bufferSize b = bufferSize) as Hwhole.
  { subst b bufferSize. simpl. rewrite Hsize, Hcount, Hstride.
    unfold Int.mul64. apply wrap64_small. exact Hproduct. }
  assert (0 <= bufferSize) as Hn.
  { subst bufferSize b. simpl. rewrite Hcount, Hstride. lia. }
  split; [exact Hwhole |]. split; [| split].
  - intros offset Hfit Hdata. unfold Buffer.writeToBuffer.
    change (Buffer.m_mapped b) with (Some mapped).
    rewrite Z.eqb_refl, Hwhole. apply memcpy_copied; assumption.
  - intros offset Hshort. unfold Buffer.writeToBuffer.
    change (Buffer.m_mapped b) with (Some mapped).
    rewrite Z.eqb_refl, Hwhole. unfold memcpy.
    assert ((position mapped + bufferSize <=? region_size mapped) = false) as ->
      by (apply Z.leb_gt; exact Hshort).
    rewrite andb_false_r. reflexivity.
  - intros size offset Hsize' Hsz Hoff Hfit Hdata.
    unfold Buffer.writeToBuffer. change (Buffer.m_mapped b) with (Some mapped).
    apply Z.eqb_neq in Hsize'. rewrite Hsize'.
    replace (address mapped + offset) with (address (advance mapped offset))
      by (unfold address, advance; simpl; lia).
    destruct Hin as (H1 & H2 & H3).
    apply memcpy_copied; unfold in_memory, advance; simpl; lia.
Qed.

Lemma writeToBuffer_whole_or_range_witness :
  let b := Sim.three_padded in
  let partly := Buffer.set_mapped Sim.three_padded (Some (mapping 0 8)) in
  Buffer.m_bufferSize b = Buffer.m_alignmentSize b * Buffer.m_instanceCount b /\
  (exists mem',
     Buffer.writeToBuffer b (Sim.zeros 12) VK_WHOLE_SIZE 7 (Sim.zeros 12) = Ret mem' /\
     copied (Sim.zeros 12) mem' (address (mapping 0 12)) (Sim.zeros 12)
            (Buffer.m_alignmentSize b * Buffer.m_instanceCount b)) /\
  Buffer.writeToBuffer partly (Sim.zeros 12) VK_WHOLE_SIZE 7 (Sim.zeros 12) = Undefined /\
  (exists mem',
     Buffer.writeToBuffer b [Byte.x01; Byte.x02] 2 4 (Sim.zeros 12) = Ret mem' /\
     copied (Sim.zeros 12) mem' (address (mapping 0 12) + 4) [Byte.x01; Byte.x02] 2).
Proof.
  assert (Buffer.new 3 3 16 6 4 (Sim.boot 0)
          = Ret (Buffer.set_mapped Sim.three_padded None, Samples.with_three_padded))
    as Hnew by reflexivity.
  assert (0 <= Buffer.getAlignment 3 4 * 3 < Int.modulus64) as Hproduct
    by (vm_compute; split; congruence).
  assert (in_memory (Sim.zeros 12) (mapping 0 12)) as Hin
    by (vm_compute; repeat split; congruence).
  assert (in_memory (Sim.zeros 12) (mapping 0 8)) as Hpart
    by (vm_compute; repeat split; congruence).
  pose proof (writeToBuffer_whole_or_range 3 3 16 6 4 (Sim.boot 0)
                Samples.with_three_padded (Buffer.set_mapped Sim.three_padded None)
                (mapping 0 12) (Sim.zeros 12) (Sim.zeros 12) Hnew Hproduct Hin)
    as (Hsize & Hwhole & _ & _).
  pose proof (writeToBuffer_whole_or_range 3 3 16 6 4 (Sim.boot 0)
                Samples.with_three_padded (Buffer.set_mapped Sim.three_padded None)
                (mapping 0 8) (Sim.zeros 12) (Sim.zeros 12) Hnew Hproduct Hpart)
    as (_ & _ & Hshort & _).
  pose proof (writeToBuffer_whole_or_range 3 3 16 6 4 (Sim.boot 0)
                Samples.with_three_padded (Buffer.set_mapped Sim.three_padded None)
                (mapping 0 12) [Byte.x01; Byte.x02] (Sim.zeros 12) Hnew Hproduct Hin)
    as (_ & _ & _ & Hrange).
  cbv zeta. split; [exact Hsize |]. split; [| split].
  - apply (Hwhole 7); vm_compute; congruence.
  - apply (Hshort 7). vm_compute. reflexivity.
  - apply (Hrange 2 4); vm_compute; congruence.
Defined.

(** C4, as stated, fails for a buffer that is mapped from an offset other
    than 0.  On a buffer of two one-byte elements [map(1, 1)] succeeds and
    leaves [m_mapped] pointing at byte 1 of the memory;
    [writeToIndex(data, 0)] then stores the byte at [m_mapped + 0], which is
    byte 1: the range that [descriptorInfoForIndex(0)] reports (offset 0, one
    byte) still reads as before, and the byte of index 1 has changed. *)
Lemma writeToIndex_after_partial_map_misses_slot :
  let b := Buffer.set_mapped Sim.two_bytes (Some (mapping 1 1)) in
  let data := [Byte.xff] in
  let mem := [Byte.x00; Byte.x00] in
  let mem' := [Byte.x00; Byte.xff] in
  Buffer.new 1 2 16 6 1 (Sim.boot 0) = Ret (Sim.two_bytes, Sim.with_two_bytes) /\
  Buffer.map Sim.two_bytes 1 1 Sim.with_two_bytes
    = Ret ((VK_SUCCESS, b), Sim.log (Sim.MapMemory 2 1 1) Sim.with_two_bytes) /\
  Buffer.writeToIndex b data 0 mem = Ret mem' /\
  Buffer.read_descriptor mem' (Buffer.descriptorInfoForIndex b 0) = [Byte.x00] /\
  Buffer.read_descriptor mem' (Buffer.descriptorInfoForIndex b 0) <> data /\
  Buffer.read_descriptor mem' (Buffer.descriptorInfoForIndex b 1)
    <> Buffer.read_descriptor mem (Buffer.descriptorInfoForIndex b 1).
Proof.
  cbv zeta. repeat split; try reflexivity; vm_compute; discriminate.
Qed.

(** C4 (amended): take a buffer whose memory is mapped from offset 0 (as
    [map()] with its default arguments does) over at least [m_bufferSize]
    bytes, whose stride [m_alignmentSize] is at least [m_instanceSize], and
    whose size [m_bufferSize] is the product
    [m_alignmentSize * m_instanceCount] without wrap-around.  For every index
    [0 <= i < m_instanceCount], [writeToIndex(data, i)] returns, having
    stored the [m_instanceSize] bytes of [data] at byte offset
    [i * m_alignmentSize]: the range reported by [descriptorInfoForIndex(i)]
    reads as those bytes followed by the padding bytes it held before, and
    the range of every other index [j <> i] reads as before. *)
Theorem writeToIndex_read_back
        (b : Buffer.t) (data mem : list Byte.byte) (mapped i : Z) :
  Buffer.m_mapped b = Some (mapping 0 mapped) ->
  Buffer.m_bufferSize b <= mapped <= zlen mem ->
  0 <= Buffer.m_instanceSize b <= Buffer.m_alignmentSize b ->
  Buffer.m_bufferSize b = Buffer.m_alignmentSize b * Buffer.m_instanceCount b ->
  Buffer.m_bufferSize b < Int.modulus64 ->
  Buffer.m_instanceSize b <= zlen data ->
  0 <= i < Buffer.m_instanceCount b ->
  exists mem',
    Buffer.writeToIndex b data i mem = Ret mem' /\
    copied mem mem' (i * Buffer.m_alignmentSize b) data (Buffer.m_instanceSize b) /\
    Buffer.read_descriptor mem' (Buffer.descriptorInfoForIndex b i) =
      take (Z.to_nat (Buffer.m_instanceSize b)) data
      ++ drop (Z.to_nat (Buffer.m_instanceSize b))
              (Buffer.read_descriptor mem (Buffer.descriptorInfoForIndex b i)) /\
    forall j, 0 <= j < Buffer.m_instanceCount b -> j <> i ->
      Buffer.read_descriptor mem' (Buffer.descriptorInfoForIndex b j) =
      Buffer.read_descriptor mem (Buffer.descriptorInfoForIndex b j).
Proof.
  intros Hmapped Hfit Hsize Hprod Hwrap Hdata Hi.
  set (a := Buffer.m_alignmentSize b) in *.
  set (s := Buffer.m_instanceSize b) in *.
  set (n := Buffer.m_instanceCount b) in *.
  rewrite Hprod in Hwrap, Hfit.
  assert (forall k, 0 <= k < n -> 0 <= k * a /\ k * a + a <= a * n) as Hslot
    by (intros k Hk; nia).
  assert (forall k, 0 <= k < n ->
            Int.mul64 (Int.int_to_u64 k) a = k * a) as Hoff.
  { intros k Hk. apply index_offset. destruct (Hslot k Hk). lia. }
  destruct (Hslot i Hi) as [Hi0 Hi1].
  assert (Buffer.writeToIndex b data i mem = store_bytes mem (i * a) data s) as Hwrite.
  { unfold Buffer.writeToIndex, Buffer.writeToBuffer. rewrite Hmapped.
    fold a s. rewrite (Hoff i Hi).
    destruct (s =? VK_WHOLE_SIZE) eqn:Hs.
    - (* an instance as large as the sentinel: one element, and the whole
         buffer is that element *)
      apply Z.eqb_eq in Hs. rewrite VK_WHOLE_SIZE_eq in Hs.
      pose proof modulus64_eq as HM.
      assert (n = 1) as Hn by nia.
      assert (i = 0) as -> by lia.
      rewrite memcpy_store by (simpl; lia).
      rewrite Hprod, Hn. unfold address. simpl. f_equal; lia.
    - rewrite memcpy_store by (simpl; lia). reflexivity. }
  destruct (store_bytes_copied mem (i * a) data s) as (mem' & Hc & Hcopied); try lia.
  exists mem'. rewrite Hwrite. split; [exact Hc |]. split; [exact Hcopied |].
  unfold Buffer.read_descriptor, Buffer.descriptorInfoForIndex, Buffer.descriptorInfo.
  simpl. fold a. split.
  - rewrite (Hoff i Hi). apply (store_bytes_read_slot _ _ _ _ _ _ Hc). lia.
  - intros j Hj Hne. rewrite (Hoff j Hj).
    destruct (Hslot j Hj) as [Hj0 Hj1].
    apply (store_bytes_read_outside _ _ _ _ _ _ _ Hc); [lia | lia | nia].
Qed.

Lemma writeToIndex_read_back_witness :
  exists mem',
    Buffer.writeToIndex Sim.three_padded [Byte.x01; Byte.x02; Byte.x03] 1 (Sim.zeros 12)
      = Ret mem' /\
    copied (Sim.zeros 12) mem' (1 * Buffer.m_alignmentSize Sim.three_padded)
           [Byte.x01; Byte.x02; Byte.x03] (Buffer.m_instanceSize Sim.three_padded) /\
    Buffer.read_descriptor mem' (Buffer.descriptorInfoForIndex Sim.three_padded 1) =
      take (Z.to_nat (Buffer.m_instanceSize Sim.three_padded))
           [Byte.x01; Byte.x02; Byte.x03]
      ++ drop (Z.to_nat (Buffer.m_instanceSize Sim.three_padded))
              (Buffer.read_descriptor (Sim.zeros 12)
                 (Buffer.descriptorInfoForIndex Sim.three_padded 1)) /\
    forall j, 0 <= j < Buffer.m_instanceCount Sim.three_padded -> j <> 1 ->
      Buffer.read_descriptor mem' (Buffer.descriptorInfoForIndex Sim.three_padded j) =
      Buffer.read_descriptor (Sim.zeros 12)
        (Buffer.descriptorInfoForIndex Sim.three_padded j).
Proof.
  apply (writeToIndex_read_back Sim.three_padded [Byte.x01; Byte.x02; Byte.x03]
           (Sim.zeros 12) 12 1).
  - reflexivity.
  - vm_compute. split; congruence.
  - vm_compute. split; congruence.
  - reflexivity.
  - reflexivity.
  - vm_compute. congruence.
  - vm_compute. split; congruence.
Defined.

(** What the slot of the example holds after the write: the three bytes and
    the padding byte. *)
Example writeToIndex_three_padded :
  Buffer.writeToIndex Sim.three_padded [Byte.x01; Byte.x02; Byte.x03] 1 (Sim.zeros 12)
  = Ret [Byte.x00; Byte.x00; Byte.x00; Byte.x00;
         Byte.x01; Byte.x02; Byte.x03; Byte.x00;
         Byte.x00; Byte.x00; Byte.x00; Byte.x00].
Proof. reflexivity. Qed.

(** A buffer built and mapped with the default arguments of [map] on the
    simulated device is mapped whole, from offset 0. *)
Example map_default_arguments :
  Buffer.map Sim.two_bytes VK_WHOLE_SIZE 0 Sim.with_two_bytes
  = Ret ((VK_SUCCESS, Buffer.set_mapped Sim.two_bytes (Some (mapping 0 2))),
         Sim.log (Sim.MapMemory 2 0 VK_WHOLE_SIZE) Sim.with_two_bytes).
Proof. reflexivity. Qed.

Section BufferConstructed.
Import Int Buffer.
Context {D : Type} `{Vulkan D}.

(** A buffer built by the constructor has a stride that covers an
    instance, provided the rounding did not wrap. *)
Lemma new_stride_covers_instance instanceSize instanceCount usageFlags
      memoryPropertyFlags minOffsetAlignment (d d' : D) b :
  0 <= instanceSize -> 0 <= minOffsetAlignment ->
  instanceSize + minOffsetAlignment <= modulus64 ->
  new instanceSize instanceCount usageFlags memoryPropertyFlags minOffsetAlignment d
    = Ret (b, d') ->
  0 <= m_instanceSize b <= m_alignmentSize b.
Proof.
  intros Hs Ha Hsum Hnew.
  apply new_sizes in Hnew as (_ & -> & _ & -> & _ & _).
  destruct (Z.eq_dec minOffsetAlignment 0) as [-> | Hne].
  - rewrite getAlignment_zero. lia.
  - pose proof (getAlignment_bounds instanceSize minOffsetAlignment). lia.
Qed.

End BufferConstructed.

(** C5, as stated, fails for [flush] and [invalidate]: neither looks at
    [m_mapped].  On a buffer that was never mapped both hand their range to
    the device and return what the device answers; nothing is rejected. *)
Lemma flush_and_invalidate_run_unmapped :
  let range := {| range_memory := 2; range_offset := 0; range_size := VK_WHOLE_SIZE |} in
  Buffer.m_mapped Sim.two_bytes = None /\
  Buffer.flush Sim.two_bytes VK_WHOLE_SIZE 0 Sim.with_two_bytes
    = Ret (VK_SUCCESS, Sim.log (Sim.FlushMappedMemoryRanges [range]) Sim.with_two_bytes) /\
  Buffer.invalidate Sim.two_bytes VK_WHOLE_SIZE 0 Sim.with_two_bytes
    = Ret (VK_SUCCESS, Sim.log (Sim.InvalidateMappedMemoryRanges [range]) Sim.with_two_bytes) /\
  is_assertion_failure (Buffer.flush Sim.two_bytes VK_WHOLE_SIZE 0 Sim.with_two_bytes) = false /\
  is_assertion_failure (Buffer.invalidate Sim.two_bytes VK_WHOLE_SIZE 0 Sim.with_two_bytes) = false.
Proof. cbv zeta. repeat split. Qed.

(** C5 (amended): only [writeToBuffer] checks the mapping.  With a mapping
    active its assertion cannot fail; without one the assertion fails and
    nothing is copied.  [flush] and [invalidate] have no check and no error
    branch of their own: mapped or not, they pass the range
    [(m_memory, offset, size)] to the device and return its result. *)
Theorem mapping_asserted_by_writeToBuffer_only
        {D : Type} `{Vulkan D} (b : Buffer.t) (data mem : list Byte.byte)
        (size offset : Z) (d : D) :
  (forall mapped, Buffer.m_mapped b = Some mapped ->
     is_assertion_failure (Buffer.writeToBuffer b data size offset mem) = false) /\
  (Buffer.m_mapped b = None ->
     Buffer.writeToBuffer b data size offset mem
       = AssertionFailed "Cannot copy to unmapped buffer") /\
  Buffer.flush b size offset d =
    Ret (vkFlushMappedMemoryRanges
           [{| range_memory := Buffer.m_memory b;
               range_offset := offset; range_size := size |}] d) /\
  Buffer.invalidate b size offset d =
    Ret (vkInvalidateMappedMemoryRanges
           [{| range_memory := Buffer.m_memory b;
               range_offset := offset; range_size := size |}] d).
Proof.
  repeat split.
  - intros mapped Hmapped. unfold Buffer.writeToBuffer. rewrite Hmapped.
    destruct (size =? VK_WHOLE_SIZE); apply memcpy_never_asserts.
  - intros Hnull. unfold Buffer.writeToBuffer. rewrite Hnull. reflexivity.
Qed.

Lemma mapping_asserted_by_writeToBuffer_only_witness :
  is_assertion_failure
    (Buffer.writeToBuffer Sim.three_padded [Byte.x01] 1 0 (Sim.zeros 12)) = false /\
  Buffer.writeToBuffer Sim.two_bytes [Byte.x01] 1 0 (Sim.zeros 2)
    = AssertionFailed "Cannot copy to unmapped buffer".
Proof.
  split.
  - apply (proj1 (mapping_asserted_by_writeToBuffer_only
                    Sim.three_padded [Byte.x01] (Sim.zeros 12) 1 0 (Sim.boot 0))
                 (mapping 0 12)).
    reflexivity.
  - apply (proj1 (proj2 (mapping_asserted_by_writeToBuffer_only
                           Sim.two_bytes [Byte.x01] (Sim.zeros 2) 1 0 (Sim.boot 0)))).
    reflexivity.
Defined.

(** C10: [unmap] always returns and leaves [m_mapped] null; on a buffer
    without a mapping it changes neither the buffer nor the device; a second
    [unmap] adds nothing to the first; and the destructor, which starts with
    [unmap], returns for every buffer, calling [vkUnmapMemory] only when a
    mapping is active. *)
Theorem unmap_idempotent {D : Type} `{Vulkan D} (b : Buffer.t) (d : D) :
  (Buffer.m_mapped b = None -> Buffer.unmap b d = Ret (b, d)) /\
  (exists b' d',
     Buffer.unmap b d = Ret (b', d') /\
     Buffer.m_mapped b' = None /\
     Buffer.unmap b' d' = Ret (b', d')) /\
  (do b1 <- Buffer.unmap b ;; Buffer.unmap b1) d = Buffer.unmap b d /\
  Buffer.destroy b d =
    Ret (tt, vkFreeMemory (Buffer.m_memory b)
               (vkDestroyBuffer (Buffer.m_buffer b)
                  (match Buffer.m_mapped b with
                   | Some _ => vkUnmapMemory (Buffer.m_memory b) d
                   | None => d
                   end))).
Proof.
  unfold Buffer.destroy, Buffer.unmap, bind, call_, ret.
  destruct (Buffer.m_mapped b) as [p |] eqn:Hmapped; simpl.
  - split; [discriminate |]. split; [| split; reflexivity].
    exists (Buffer.set_mapped b nullptr), (vkUnmapMemory (Buffer.m_memory b) d).
    repeat split.
  - rewrite Hmapped. split; [reflexivity |]. split; [| split; reflexivity].
    exists b, d. rewrite Hmapped. repeat split.
Qed.

Lemma unmap_idempotent_witness :
  Buffer.unmap Sim.two_bytes Sim.with_two_bytes
  = Ret (Sim.two_bytes, Sim.with_two_bytes).
Proof.
  apply (proj1 (unmap_idempotent Sim.two_bytes Sim.with_two_bytes)). reflexivity.
Defined.

(** On the simulated device: the first [unmap] of a mapped buffer issues the
    one [vkUnmapMemory], the second issues nothing. *)
Example unmap_twice_on_device :
  (do b1 <- Buffer.unmap Sim.three_padded ;; Buffer.unmap b1) (Sim.boot 0)
  = Ret (Buffer.set_mapped Sim.three_padded None, Sim.log (Sim.UnmapMemory 2) (Sim.boot 0)).
Proof. reflexivity. Qed.

(** ** Descriptor pool and writer *)

Section DescriptorFacts.
Import Descriptors.
Context {D : Type} `{Vulkan D}.

Lemma allocateDescriptorSet_unfold pool layout descriptor (d : D) :
  allocateDescriptorSet pool layout descriptor d =
  let answer := vkAllocateDescriptorSets (allocInfo_of pool layout) descriptor d in
  Ret ((answer.1.1 =? VK_SUCCESS, answer.1.2), answer.2).
Proof.
  unfold allocateDescriptorSet, allocInfo_of, bind, call, ret. simpl.
  destruct (vkAllocateDescriptorSets _ descriptor d) as [[res set] d1]. simpl.
  destruct (res =? VK_SUCCESS); reflexivity.
Qed.

Lemma overwrite_unfold (w : DescriptorWriter) set (d : D) :
  overwrite w set d =
  Ret (set_writes w (List.map (retarget set) (m_writes w)),
       vkUpdateDescriptorSets (List.map (retarget set) (m_writes w)) d).
Proof. reflexivity. Qed.

Lemma overwrite_file_unfold (w : DescriptorWriter) set (d : D) :
  DescriptorWriterFile.overwrite w set d =
  Ret (set_writes w (List.map (retarget set) (m_writes w)),
       vkUpdateDescriptorSets (List.map (retarget set) (m_writes w)) d).
Proof. reflexivity. Qed.

(** [build] of [descriptors.cpp]: on a failed allocation it returns
    [false] and the device sees no update; otherwise every pending write
    goes to the device, aimed at the new set, and it returns [true]. *)
Lemma build_unfold (w : DescriptorWriter) set (d : D) :
  build w set d =
  let answer :=
    vkAllocateDescriptorSets
      (allocInfo_of (m_pool w) (getDescriptorSetLayout (m_setLayout w))) set d in
  let set' := answer.1.2 in
  if answer.1.1 =? VK_SUCCESS
  then Ret ((true, set_writes w (List.map (retarget set') (m_writes w)), set'),
            vkUpdateDescriptorSets (List.map (retarget set') (m_writes w)) answer.2)
  else Ret ((false, w, set'), answer.2).
Proof.
  unfold build, bind. rewrite allocateDescriptorSet_unfold. simpl.
  destruct (vkAllocateDescriptorSets _ set d) as [[res set1] d1]. simpl.
  destruct (res =? VK_SUCCESS); reflexivity.
Qed.

(** [build] of [descriptor_writer.cpp]: the answer of the allocation plays
    no part. *)
Lemma build_file_unfold (w : DescriptorWriter) set (d : D) :
  DescriptorWriterFile.build w set d =
  let answer :=
    vkAllocateDescriptorSets
      (allocInfo_of (m_pool w) (getDescriptorSetLayout (m_setLayout w))) set d in
  let set' := answer.1.2 in
  Ret ((set_writes w (List.map (retarget set') (m_writes w)), set'),
       vkUpdateDescriptorSets (List.map (retarget set') (m_writes w)) answer.2).
Proof.
  unfold DescriptorWriterFile.build, bind. rewrite allocateDescriptorSet_unfold. simpl.
  destruct (vkAllocateDescriptorSets _ set d) as [[res set1] d1]. reflexivity.
Qed.

Lemma retarget_dstSet set write : dstSet (retarget set write) = set.
Proof. reflexivity. Qed.

Lemma retarget_payload set write :
  dstBinding (retarget set write) = dstBinding write /\
  write_descriptorType (retarget set write) = write_descriptorType write /\
  write_descriptorCount (retarget set write) = write_descriptorCount write /\
  pBufferInfo (retarget set write) = pBufferInfo write /\
  pImageInfo (retarget set write) = pImageInfo write.
Proof. repeat split. Qed.

End DescriptorFacts.

(** C7: [allocateDescriptorSet] always returns, and what it returns is the
    device's verdict as a [bool]: [true], with the set the device stored,
    exactly when [vkAllocateDescriptorSets] answers [VK_SUCCESS], and [false]
    for every other answer, an exhausted pool among them.  No exception
    leaves the call. *)
Theorem allocateDescriptorSet_returns_bool
        {D : Type} `{Vulkan D} (pool : Descriptors.DescriptorPool)
        (layout : VkDescriptorSetLayout) (descriptor : VkDescriptorSet) (d : D) :
  let answer :=
    vkAllocateDescriptorSets (Descriptors.allocInfo_of pool layout) descriptor d in
  exists success : bool,
    Descriptors.allocateDescriptorSet pool layout descriptor d
      = Ret ((success, answer.1.2), answer.2) /\
    (success = true <-> answer.1.1 = VK_SUCCESS) /\
    (success = false <-> answer.1.1 <> VK_SUCCESS) /\
    is_thrown (Descriptors.allocateDescriptorSet pool layout descriptor d) = false.
Proof.
  intros answer. exists (answer.1.1 =? VK_SUCCESS).
  rewrite allocateDescriptorSet_unfold. fold answer. cbv zeta.
  split; [reflexivity |]. split; [apply Z.eqb_eq |]. split; [apply Z.eqb_neq | reflexivity].
Qed.

(** An exhausted pool on the simulated device: the device answers
    [VK_ERROR_OUT_OF_POOL_MEMORY] and the call returns [false]; with a set
    left it returns [true] and the new handle. *)
Example allocateDescriptorSet_exhausted :
  Descriptors.allocateDescriptorSet Sim.pool 7 VK_NULL_HANDLE (Sim.boot 0)
  = Ret ((false, VK_NULL_HANDLE),
         Sim.log (Sim.AllocateDescriptorSets (Descriptors.allocInfo_of Sim.pool 7))
                 (Sim.boot 0)).
Proof. reflexivity. Qed.

Example allocateDescriptorSet_available :
  exists d, Descriptors.allocateDescriptorSet Sim.pool 7 VK_NULL_HANDLE (Sim.boot 1)
            = Ret ((true, 1), d) /\ Sim.free_sets d = 0.
Proof. eexists. split; reflexivity. Qed.

(** [build] of [descriptors.cpp] does what C1 says. *)
Lemma build_reports_failed_allocation
      {D : Type} `{Vulkan D} (w : Descriptors.DescriptorWriter)
      (set : VkDescriptorSet) (d : D) :
  let answer :=
    vkAllocateDescriptorSets
      (Descriptors.allocInfo_of (Descriptors.m_pool w)
         (Descriptors.getDescriptorSetLayout (Descriptors.m_setLayout w))) set d in
  let set' := answer.1.2 in
  (answer.1.1 <> VK_SUCCESS ->
     Descriptors.build w set d = Ret ((false, w, set'), answer.2)) /\
  (answer.1.1 = VK_SUCCESS ->
     Descriptors.build w set d =
     Ret ((true,
           Descriptors.set_writes w
             (List.map (Descriptors.retarget set') (Descriptors.m_writes w)), set'),
          vkUpdateDescriptorSets
            (List.map (Descriptors.retarget set') (Descriptors.m_writes w)) answer.2)).
Proof.
  intros answer set'. rewrite build_unfold. fold answer. cbv zeta. fold set'.
  split; intros Hres.
  - apply Z.eqb_neq in Hres. rewrite Hres. reflexivity.
  - apply Z.eqb_eq in Hres. rewrite Hres. reflexivity.
Qed.

(** C1 fails on [build] of [descriptor_writer.cpp].  With an exhausted pool
    the allocation returns [false] and leaves the set null; this [build]
    drops that value, goes on to [overwrite], so that the device receives
    an update of both pending writes aimed at the null set, and returns
    normally, with nothing that tells the caller of the failure. *)
Theorem build_file_proceeds_after_failed_allocation :
  let info :=
    Descriptors.allocInfo_of Sim.pool (Descriptors.getDescriptorSetLayout Sim.layout) in
  let writes := List.map (Descriptors.retarget VK_NULL_HANDLE)
                         (Descriptors.m_writes Sim.writer) in
  Descriptors.allocateDescriptorSet Sim.pool
    (Descriptors.getDescriptorSetLayout Sim.layout) VK_NULL_HANDLE (Sim.boot 0)
    = Ret ((false, VK_NULL_HANDLE), Sim.log (Sim.AllocateDescriptorSets info) (Sim.boot 0)) /\
  DescriptorWriterFile.build Sim.writer VK_NULL_HANDLE (Sim.boot 0)
    = Ret ((Descriptors.set_writes Sim.writer writes, VK_NULL_HANDLE),
           Sim.log (Sim.UpdateDescriptorSets writes)
                   (Sim.log (Sim.AllocateDescriptorSets info) (Sim.boot 0))) /\
  Descriptors.build Sim.writer VK_NULL_HANDLE (Sim.boot 0)
    = Ret ((false, Sim.writer, VK_NULL_HANDLE),
           Sim.log (Sim.AllocateDescriptorSets info) (Sim.boot 0)).
Proof. cbv zeta. repeat split. Qed.

(** C2, as stated, fails: [overwrite] does not clear [m_writes].  A writer
    with two pending writes still holds two after [overwrite], after the
    [build] of either file, and a second [overwrite] sends both again. *)
Lemma overwrite_keeps_pending_writes :
  let kept := [Descriptors.retarget 5 Sim.buffer_write;
               Descriptors.retarget 5 Sim.image_write] in
  Descriptors.overwrite Sim.writer 5 (Sim.boot 1)
    = Ret (Descriptors.set_writes Sim.writer kept,
           Sim.log (Sim.UpdateDescriptorSets kept) (Sim.boot 1)) /\
  DescriptorWriterFile.overwrite Sim.writer 5 (Sim.boot 1)
    = Ret (Descriptors.set_writes Sim.writer kept,
           Sim.log (Sim.UpdateDescriptorSets kept) (Sim.boot 1)) /\
  Descriptors.m_writes (Descriptors.set_writes Sim.writer kept) <> [] /\
  (exists w' d', Descriptors.build Sim.writer VK_NULL_HANDLE (Sim.boot 1)
                 = Ret ((true, w', 1), d') /\
                 length (Descriptors.m_writes w') = 2%nat) /\
  (exists w' d', DescriptorWriterFile.build Sim.writer VK_NULL_HANDLE (Sim.boot 1)
                 = Ret ((w', 1), d') /\
                 length (Descriptors.m_writes w') = 2%nat).
Proof.
  cbv zeta. split; [reflexivity |]. split; [reflexivity |]. split; [discriminate |].
  split; eexists _, _; split; reflexivity.
Qed.

(** C2 (amended): applying the pending writes keeps them.  After
    [overwrite], in either file, the writer holds the same writes in the same
    order, each with [dstSet] set to the target set and nothing else changed,
    and the device has received exactly these; [build] returns a writer with
    as many pending writes as before. *)
Theorem overwrite_retargets_pending_writes
        {D : Type} `{Vulkan D} (w : Descriptors.DescriptorWriter)
        (set : VkDescriptorSet) (d : D) :
  let writes := List.map (Descriptors.retarget set) (Descriptors.m_writes w) in
  Descriptors.overwrite w set d
    = Ret (Descriptors.set_writes w writes, vkUpdateDescriptorSets writes d) /\
  DescriptorWriterFile.overwrite w set d
    = Ret (Descriptors.set_writes w writes, vkUpdateDescriptorSets writes d) /\
  length writes = length (Descriptors.m_writes w) /\
  (forall (k : nat) write, Descriptors.m_writes w !! k = Some write ->
     writes !! k = Some (Descriptors.retarget set write)) /\
  (exists success w' set' d',
     Descriptors.build w set d = Ret ((success, w', set'), d') /\
     length (Descriptors.m_writes w') = length (Descriptors.m_writes w)) /\
  (exists w' set' d',
     DescriptorWriterFile.build w set d = Ret ((w', set'), d') /\
     length (Descriptors.m_writes w') = length (Descriptors.m_writes w)).
Proof.
  intros writes. split; [reflexivity |]. split; [reflexivity |].
  split; [apply length_map |]. split.
  - intros k write Hk. subst writes.
    change (List.map (Descriptors.retarget set) (Descriptors.m_writes w))
      with (Descriptors.retarget set <$> Descriptors.m_writes w).
    rewrite list_lookup_fmap, Hk. reflexivity.
  - split.
    + rewrite build_unfold. cbv zeta.
      destruct (_ =? VK_SUCCESS); eexists _, _, _, _; (split; [reflexivity |]); simpl.
      * apply length_map.
      * reflexivity.
    + rewrite build_file_unfold. cbv zeta.
      eexists _, _, _. split; [reflexivity |]. simpl. apply length_map.
Qed.

Lemma overwrite_retargets_pending_writes_witness :
  List.map (Descriptors.retarget 5) (Descriptors.m_writes Sim.writer) !! 1%nat
  = Some (Descriptors.retarget 5 Sim.image_write).
Proof.
  apply (proj1 (proj2 (proj2 (proj2
           (overwrite_retargets_pending_writes Sim.writer 5 (Sim.boot 1)))))
           1%nat Sim.image_write).
  reflexivity.
Defined.

(** ** The mesh instance record *)

Section MeshInstanceFacts.
Import MeshInstance.

Lemma le_bytes_length n v : length (le_bytes n v) = n.
Proof.
  revert v. induction n as [| n IH]; intros v; simpl; [reflexivity |].
  destruct (Byte.of_N _); simpl; rewrite IH; reflexivity.
Qed.

Lemma object_bytes_length pad r : length (object_bytes pad r) = 48%nat.
Proof.
  unfold object_bytes. destruct (textureTintColor r) as [[[x y] z] w].
  rewrite !length_app, !le_bytes_length, length_replicate. reflexivity.
Qed.

Lemma vector_bytes_cons pad r v :
  vector_bytes pad (r :: v) = object_bytes pad r ++ vector_bytes pad v.
Proof. reflexivity. Qed.

Lemma vector_bytes_length pad v :
  length (vector_bytes pad v) = (48 * length v)%nat.
Proof.
  induction v as [| r v IH]; [reflexivity |].
  rewrite vector_bytes_cons, length_app, object_bytes_length, IH. simpl. lia.
Qed.

(** Element [k] of the vector occupies the 48 bytes from [48 * k]. *)
Lemma vector_bytes_element pad v (k : nat) r :
  v !! k = Some r ->
  take 48 (drop (48 * k) (vector_bytes pad v)) = object_bytes pad r.
Proof.
  revert k. induction v as [| r0 v IH]; intros k Hk; [discriminate |].
  rewrite vector_bytes_cons. destruct k as [| k].
  - injection Hk as ->. rewrite Nat.mul_0_r, drop_0.
    apply take_app_length'. symmetry. apply object_bytes_length.
  - replace (48 * S k)%nat with (48 + 48 * k)%nat by lia.
    rewrite drop_app_add' by (symmetry; apply object_bytes_length).
    apply IH. exact Hk.
Qed.

(** Each member's bytes sit at the member's offset. *)
Lemma object_bytes_members pad r :
  read_range (object_bytes pad r) 0 8 = le_bytes 8 (vertexBufferAddress r) /\
  read_range (object_bytes pad r) 8 8 = le_bytes 8 (indexBufferAddress r) /\
  read_range (object_bytes pad r) 16 4 = le_bytes 4 (materialIndex r) /\
  read_range (object_bytes pad r) 20 4 = le_bytes 4 (textureTilingFactor r) /\
  read_range (object_bytes pad r) 32 16 =
    (let '(x, y, z, w) := textureTintColor r in
     le_bytes 4 x ++ le_bytes 4 y ++ le_bytes 4 z ++ le_bytes 4 w).
Proof.
  unfold object_bytes, read_range.
  destruct (textureTintColor r) as [[[x y] z] w].
  set (a := le_bytes 8 (vertexBufferAddress r)).
  set (b := le_bytes 8 (indexBufferAddress r)).
  set (c := le_bytes 4 (materialIndex r)).
  set (e := le_bytes 4 (textureTilingFactor r)).
  set (p := replicate 8 pad).
  set (t := le_bytes 4 x ++ le_bytes 4 y ++ le_bytes 4 z ++ le_bytes 4 w).
  assert (length a = 8%nat) as Ha by apply le_bytes_length.
  assert (length b = 8%nat) as Hb by apply le_bytes_length.
  assert (length c = 4%nat) as Hc by apply le_bytes_length.
  assert (length e = 4%nat) as He by apply le_bytes_length.
  assert (length p = 8%nat) as Hp by apply length_replicate.
  assert (length t = 16%nat) as Ht
    by (subst t; rewrite !length_app, !le_bytes_length; reflexivity).
  repeat split.
  - rewrite drop_0. apply take_app_length'. lia.
  - change (Z.to_nat 8) with 8%nat.
    rewrite drop_app_length' by lia. apply take_app_length'. lia.
  - change (Z.to_nat 16) with (8 + 8)%nat. change (Z.to_nat 4) with 4%nat.
    rewrite drop_app_add' by lia. rewrite drop_app_length' by lia.
    apply take_app_length'. lia.
  - change (Z.to_nat 20) with (8 + (8 + 4))%nat. change (Z.to_nat 4) with 4%nat.
    rewrite drop_app_add' by lia. rewrite drop_app_add' by lia.
    rewrite drop_app_length' by lia. apply take_app_length'. lia.
  - change (Z.to_nat 32) with (8 + (8 + (4 + (4 + 8))))%nat.
    change (Z.to_nat 16) with 16%nat.
    rewrite drop_app_add' by lia. rewrite drop_app_add' by lia.
    rewrite drop_app_add' by lia. rewrite drop_app_add' by lia.
    rewrite drop_app_length' by lia. rewrite <- Ht. apply firstn_all.
Qed.

End MeshInstanceFacts.

(** C8: under the layout rule of standard-layout classes (members in
    declaration order, each at the next multiple of its alignment, the size
    rounded up to the alignment of the class) [MeshInstanceData] is 48 bytes
    long and 16-byte aligned, with [vertexBufferAddress] at offset 0,
    [indexBufferAddress] at 8, [materialIndex] at 16, [textureTilingFactor]
    at 20 and [textureTintColor] at 32.  Element [k] of a vector of records
    therefore starts at byte [48 * k], a multiple of 16, and the storage of a
    vector of [N] records is [48 * N] bytes in which the 48 bytes from
    [48 * k] are the [k]-th record, in the order of the vector. *)
Theorem MeshInstanceData_layout :
  MeshInstance.sizeof MeshInstance.MeshInstanceData_decl = 48 /\
  MeshInstance.alignof MeshInstance.MeshInstanceData_decl = 16 /\
  MeshInstance.offsetof MeshInstance.MeshInstanceData_decl "vertexBufferAddress" = Some 0 /\
  MeshInstance.offsetof MeshInstance.MeshInstanceData_decl "indexBufferAddress" = Some 8 /\
  MeshInstance.offsetof MeshInstance.MeshInstanceData_decl "materialIndex" = Some 16 /\
  MeshInstance.offsetof MeshInstance.MeshInstanceData_decl "textureTilingFactor" = Some 20 /\
  MeshInstance.offsetof MeshInstance.MeshInstanceData_decl "textureTintColor" = Some 32 /\
  (forall k : Z,
     MeshInstance.element_offset MeshInstance.MeshInstanceData_decl k = 48 * k /\
     MeshInstance.element_offset MeshInstance.MeshInstanceData_decl k mod 16 = 0) /\
  (forall pad (v : list MeshInstance.MeshInstanceData),
     zlen (MeshInstance.vector_bytes pad v) = 48 * zlen v) /\
  (forall pad (v : list MeshInstance.MeshInstanceData) (k : nat) r,
     v !! k = Some r ->
     read_range (MeshInstance.vector_bytes pad v)
       (MeshInstance.element_offset MeshInstance.MeshInstanceData_decl (Z.of_nat k))
       (MeshInstance.sizeof MeshInstance.MeshInstanceData_decl)
     = MeshInstance.object_bytes pad r).
Proof.
  assert (MeshInstance.sizeof MeshInstance.MeshInstanceData_decl = 48) as Hsize
    by reflexivity.
  repeat split; try reflexivity.
  - unfold MeshInstance.element_offset. rewrite Hsize. lia.
  - unfold MeshInstance.element_offset. rewrite Hsize.
    replace (k * 48) with (k * 3 * 16) by lia. apply Z.mod_mul. lia.
  - intros pad v. unfold zlen. rewrite vector_bytes_length. lia.
  - intros pad v k r Hk. unfold read_range, MeshInstance.element_offset. rewrite Hsize.
    replace (Z.to_nat (Z.of_nat k * 48)) with (48 * k)%nat by lia.
    change (Z.to_nat 48) with 48%nat.
    apply vector_bytes_element. exact Hk.
Qed.

Lemma MeshInstanceData_layout_witness :
  read_range (MeshInstance.vector_bytes Byte.x00 Sim.three_instances)
    (MeshInstance.element_offset MeshInstance.MeshInstanceData_decl (Z.of_nat 2))
    (MeshInstance.sizeof MeshInstance.MeshInstanceData_decl)
  = MeshInstance.object_bytes Byte.x00 (Sim.instance 20480 24576 1 Sim.fifty).
Proof.
  apply (proj2 (proj2 (proj2 (proj2 (proj2 (proj2 (proj2 (proj2 (proj2
           MeshInstanceData_layout))))))))
           Byte.x00 Sim.three_instances 2%nat (Sim.instance 20480 24576 1 Sim.fifty)).
  reflexivity.
Defined.

(** The three records of the example, read back from the storage at strides
    of 48 bytes: material indices 0, 2, 1 and tiling factors 1.0, 1.0, 50.0. *)
Example three_instances_in_storage :
  let bytes := MeshInstance.vector_bytes Byte.x00 Sim.three_instances in
  zlen bytes = 144 /\
  List.map (fun k => read_range bytes (48 * k + 16) 4) [0; 1; 2]
    = [MeshInstance.le_bytes 4 0; MeshInstance.le_bytes 4 2; MeshInstance.le_bytes 4 1] /\
  List.map (fun k => read_range bytes (48 * k + 20) 4) [0; 1; 2]
    = [MeshInstance.le_bytes 4 Sim.one; MeshInstance.le_bytes 4 Sim.one;
       MeshInstance.le_bytes 4 Sim.fifty].
Proof. cbv zeta. repeat split; vm_compute; reflexivity. Qed.

(** ** The scene manager *)

(** C9: [updateTLAS] returns with the object, every field of it, and the
    device exactly as they were; and of the public member functions only
    [createTLAS] can leave the object or the device in a different state, so
    only [createTLAS] can change the TLAS handle or its buffer. *)
Theorem updateTLAS_is_a_no_op
        {D : Type} (createTLAS : SceneManager.FrameInfo -> SceneManager.t -> M D SceneManager.t)
        (s : SceneManager.t) (d : D) :
  SceneManager.updateTLAS s d = Ret (s, d) /\
  SceneManager.perform createTLAS SceneManager.UpdateTLAS s d = Ret (s, d) /\
  (forall op s' d',
     SceneManager.perform createTLAS op s d = Ret (s', d') ->
     SceneManager.m_tlas s' <> SceneManager.m_tlas s \/
     SceneManager.m_tlasBuffer s' <> SceneManager.m_tlasBuffer s \/
     s' <> s \/ d' <> d ->
     exists frameInfo, op = SceneManager.CreateTLAS frameInfo).
Proof.
  split; [reflexivity |]. split; [reflexivity |].
  intros op s' d' Hop Hchanged.
  destruct op as [frameInfo | | | | |]; [exists frameInfo; reflexivity | | | | |];
    exfalso; simpl in Hop; unfold SceneManager.updateTLAS, ret in Hop.
  - injection Hop as <- <-. destruct Hchanged as [Hc | [Hc | [Hc | Hc]]]; congruence.
  - injection Hop as <- <-. destruct Hchanged as [Hc | [Hc | [Hc | Hc]]]; congruence.
  - destruct (SceneManager.getTLASDescriptorSetLayout s); try discriminate.
    injection Hop as <- <-. destruct Hchanged as [Hc | [Hc | [Hc | Hc]]]; congruence.
  - injection Hop as <- <-. destruct Hchanged as [Hc | [Hc | [Hc | Hc]]]; congruence.
  - destruct (SceneManager.getMeshInstanceDescriptorSetLayout s); try discriminate.
    injection Hop as <- <-. destruct Hchanged as [Hc | [Hc | [Hc | Hc]]]; congruence.
Qed.

Lemma updateTLAS_is_a_no_op_witness :
  exists frameInfo,
    SceneManager.CreateTLAS
      {| SceneManager.frameIndex := 0; SceneManager.frameTime := 0;
         SceneManager.commandBuffer := 1; SceneManager.camera := 2;
         SceneManager.globalDescriptorSet := 3; SceneManager.scene := 4 |}
    = SceneManager.CreateTLAS frameInfo.
Proof.
  refine (proj2 (proj2 (updateTLAS_is_a_no_op Sim.install_tlas Sim.manager (Sim.boot 0)))
            (SceneManager.CreateTLAS
               {| SceneManager.frameIndex := 0; SceneManager.frameTime := 0;
                  SceneManager.commandBuffer := 1; SceneManager.camera := 2;
                  SceneManager.globalDescriptorSet := 3; SceneManager.scene := 4 |})
            _ _ eq_refl _).
  left. vm_compute. discriminate.
Defined.

(** * Further properties of the code *)

(** ** [buffer.cpp] *)

Section BufferMore.
Import Int Buffer.

(** On a buffer mapped whole from offset 0, [writeToIndex] is a store at
    [i * m_alignmentSize]. *)
Lemma writeToIndex_is_store (b : Buffer.t) (data mem : list Byte.byte) (mapped i : Z) :
  m_mapped b = Some (mapping 0 mapped) ->
  m_bufferSize b <= mapped ->
  0 <= m_instanceSize b <= m_alignmentSize b ->
  m_bufferSize b = m_alignmentSize b * m_instanceCount b ->
  m_bufferSize b < modulus64 ->
  0 <= i < m_instanceCount b ->
  writeToIndex b data i mem
  = store_bytes mem (i * m_alignmentSize b) data (m_instanceSize b).
Proof.
  intros Hmapped Hfit Hsize Hprod Hwrap Hi.
  set (a := m_alignmentSize b) in *.
  set (s := m_instanceSize b) in *.
  set (n := m_instanceCount b) in *.
  rewrite Hprod in Hwrap, Hfit.
  assert (0 <= i * a /\ i * a + a <= a * n) as [Hi0 Hi1] by nia.
  unfold writeToIndex, writeToBuffer. rewrite Hmapped. fold a s.
  rewrite index_offset by lia.
  destruct (s =? VK_WHOLE_SIZE) eqn:Hs.
  - apply Z.eqb_eq in Hs. rewrite VK_WHOLE_SIZE_eq in Hs.
    pose proof modulus64_eq as HM.
    assert (n = 1) as Hn by nia.
    assert (i = 0) as -> by lia.
    rewrite memcpy_store by (simpl; lia).
    rewrite Hprod, Hn. unfold address. simpl. f_equal; lia.
  - rewrite memcpy_store by (simpl; lia). reflexivity.
Qed.

Lemma store_bytes_in_range mem dst src n mem' :
  store_bytes mem dst src n = Ret mem' ->
  0 <= dst /\ 0 <= n /\ dst + n <= zlen mem /\ n <= zlen src /\ zlen mem' = zlen mem.
Proof.
  intros Hc. pose proof (store_bytes_length _ _ _ _ _ Hc) as Hlen.
  apply store_bytes_inv in Hc as (H1 & H2 & H3 & H4 & _).
  unfold zlen in *. repeat split; try assumption. lia.
Qed.

End BufferMore.

(** X1: for an alignment that is a power of two, and as long as
    [instanceSize + alignment] does not exceed [2^64], [getAlignment] returns
    the least multiple of the alignment that is not below the instance size;
    a size that is already aligned is returned as it is. *)
Theorem getAlignment_least_multiple (instanceSize k : Z) :
  0 <= k -> 0 <= instanceSize ->
  instanceSize + 2 ^ k <= Int.modulus64 ->
  let alignmentSize := Buffer.getAlignment instanceSize (2 ^ k) in
  alignmentSize mod 2 ^ k = 0 /\
  instanceSize <= alignmentSize < instanceSize + 2 ^ k /\
  (forall m, instanceSize <= m -> m mod 2 ^ k = 0 -> alignmentSize <= m) /\
  Buffer.getAlignment alignmentSize (2 ^ k) = alignmentSize.
Proof.
  intros Hk Hs Hsum alignmentSize.
  assert (0 < 2 ^ k) as Hpos by (apply Z.pow_pos_nonneg; lia).
  pose proof (getAlignment_pow2 instanceSize k Hk Hs Hsum) as Hr.
  fold alignmentSize in Hr.
  set (a := 2 ^ k) in *. set (q := (instanceSize + a - 1) / a) in *.
  assert (a <> 0) as Hne by lia.
  pose proof (Z.div_mod (instanceSize + a - 1) a Hne) as Hdm.
  pose proof (Z.mod_pos_bound (instanceSize + a - 1) a Hpos) as Hmod.
  fold q in Hdm.
  assert (alignmentSize mod a = 0) as Hmul
    by (rewrite Hr, Z.mul_comm; apply Z.mod_mul; lia).
  split; [exact Hmul |]. split; [lia |]. split.
  - intros m Hm Hma.
    pose proof (Z.div_mod m a Hne) as Hm'. rewrite Hma in Hm'.
    set (m' := m / a) in *.
    assert (q < m' + 1) as Hq by nia. nia.
  - (* the result leaves room for [a - 1] more: [2^64] is a multiple of [a] *)
    assert (k <= 64) as Hk64.
    { destruct (Z.le_gt_cases k 64) as [Hle | Hgt]; [exact Hle |].
      assert (2 ^ 64 < 2 ^ k) by (apply Z.pow_lt_mono_r; lia).
      unfold a in Hsum. rewrite modulus64_eq in Hsum. lia. }
    assert (Int.modulus64 = a * 2 ^ (64 - k)) as HM.
    { unfold a, Int.modulus64. rewrite <- Z.pow_add_r by lia. f_equal. lia. }
    set (c := 2 ^ (64 - k)) in *.
    assert (q < c) as Hqc by nia.
    assert (alignmentSize + a <= Int.modulus64) as Hroom by nia.
    assert (0 <= alignmentSize) as Hnn by lia.
    unfold a. rewrite (getAlignment_pow2 alignmentSize k Hk Hnn Hroom). fold a.
    replace (alignmentSize + a - 1) with (q * a + (a - 1)) by lia.
    rewrite Z.div_add_l by lia. rewrite Z.div_small by lia. lia.
Qed.

Lemma getAlignment_least_multiple_witness :
  let alignmentSize := Buffer.getAlignment 100 (2 ^ 6) in
  alignmentSize mod 2 ^ 6 = 0 /\
  100 <= alignmentSize < 100 + 2 ^ 6 /\
  (forall m, 100 <= m -> m mod 2 ^ 6 = 0 -> alignmentSize <= m) /\
  Buffer.getAlignment alignmentSize (2 ^ 6) = alignmentSize.
Proof.
  apply (getAlignment_least_multiple 100 6).
  - lia.
  - lia.
  - rewrite modulus64_eq. lia.
Defined.

(** X2: when nothing wraps, the constructor leaves a buffer that is not
    mapped, whose stride covers one instance and whose size is the exact
    product of stride and count; [Context::createBuffer] has been asked for
    exactly that many bytes.  When [Context::createBuffer] throws, so does
    the constructor. *)
Theorem new_establishes_layout
        {D : Type} `{Vulkan D}
        (instanceSize instanceCount usageFlags memoryPropertyFlags minOffsetAlignment : Z)
        (d : D) :
  0 <= instanceSize -> 0 <= minOffsetAlignment -> 0 <= instanceCount ->
  instanceSize + minOffsetAlignment <= Int.modulus64 ->
  Buffer.getAlignment instanceSize minOffsetAlignment * instanceCount < Int.modulus64 ->
  let size := Buffer.getAlignment instanceSize minOffsetAlignment * instanceCount in
  (forall buffer memory d',
     createBuffer size usageFlags memoryPropertyFlags d = Ret ((buffer, memory), d') ->
     exists b,
       Buffer.new instanceSize instanceCount usageFlags memoryPropertyFlags
                  minOffsetAlignment d = Ret (b, d') /\
       Buffer.m_mapped b = None /\
       Buffer.m_buffer b = buffer /\ Buffer.m_memory b = memory /\
       0 <= Buffer.m_instanceSize b <= Buffer.m_alignmentSize b /\
       Buffer.m_bufferSize b = Buffer.m_alignmentSize b * Buffer.m_instanceCount b /\
       Buffer.m_bufferSize b = size) /\
  (forall msg,
     createBuffer size usageFlags memoryPropertyFlags d = Thrown msg ->
     Buffer.new instanceSize instanceCount usageFlags memoryPropertyFlags
                minOffsetAlignment d = Thrown msg).
Proof.
  intros Hs Ha Hn Hsum Hprod size.
  assert (instanceSize <= Buffer.getAlignment instanceSize minOffsetAlignment) as Hge.
  { destruct (Z.eq_dec minOffsetAlignment 0) as [-> | Hne].
    - rewrite getAlignment_zero. lia.
    - pose proof (getAlignment_bounds instanceSize minOffsetAlignment). lia. }
  assert (Int.mul64 (Buffer.getAlignment instanceSize minOffsetAlignment) instanceCount
          = size) as Hmul.
  { apply wrap64_small. subst size. split; [nia | exact Hprod]. }
  unfold Buffer.new, bind, ret. rewrite Hmul. split.
  - intros buffer memory d' ->. eexists. split; [reflexivity |].
    simpl. repeat split; assumption.
  - intros msg ->. reflexivity.
Qed.

Lemma new_establishes_layout_witness :
  exists b,
    Buffer.new 3 3 16 6 4 (Sim.boot 0) = Ret (b, Samples.with_three_padded) /\
    Buffer.m_mapped b = None /\
    Buffer.m_buffer b = 1 /\ Buffer.m_memory b = 2 /\
    0 <= Buffer.m_instanceSize b <= Buffer.m_alignmentSize b /\
    Buffer.m_bufferSize b = Buffer.m_alignmentSize b * Buffer.m_instanceCount b /\
    Buffer.m_bufferSize b = Buffer.getAlignment 3 4 * 3.
Proof.
  assert (0 <= 3) as H3 by lia.
  assert (0 <= 4) as H4 by lia.
  assert (3 + 4 <= Int.modulus64) as Hsum by (rewrite modulus64_eq; lia).
  assert (Buffer.getAlignment 3 4 * 3 < Int.modulus64) as Hprod by reflexivity.
  exact (proj1 (new_establishes_layout (D := Sim.device) 3 3 16 6 4 (Sim.boot 0)
                  H3 H4 H3 Hsum Hprod) 1 2 Samples.with_three_padded eq_refl).
Defined.

(** X3: when [m_alignmentSize * m_instanceCount] does not wrap, the ranges
    that [descriptorInfoForIndex] reports for two indices [i < j] below the
    count do not overlap and end inside the buffer, and [flushIndex] and
    [invalidateIndex] pass the device exactly the range that
    [descriptorInfoForIndex] reports for the same index. *)
Theorem index_ranges_tile_the_buffer
        {D : Type} `{Vulkan D} (b : Buffer.t) (i j : Z) (d : D) :
  0 <= Buffer.m_alignmentSize b ->
  Buffer.m_alignmentSize b * Buffer.m_instanceCount b < Int.modulus64 ->
  0 <= i < j -> j < Buffer.m_instanceCount b ->
  let at_i := Buffer.descriptorInfoForIndex b i in
  let at_j := Buffer.descriptorInfoForIndex b j in
  let range_i :=
    {| range_memory := Buffer.m_memory b;
       range_offset := info_offset at_i; range_size := info_range at_i |} in
  info_offset at_i = i * Buffer.m_alignmentSize b /\
  info_offset at_i + info_range at_i <= info_offset at_j /\
  info_offset at_j + info_range at_j
    <= Buffer.m_alignmentSize b * Buffer.m_instanceCount b /\
  Buffer.flushIndex b i d = Ret (vkFlushMappedMemoryRanges [range_i] d) /\
  Buffer.invalidateIndex b i d = Ret (vkInvalidateMappedMemoryRanges [range_i] d).
Proof.
  intros Ha Hwrap Hij Hj. cbv zeta.
  unfold Buffer.descriptorInfoForIndex, Buffer.descriptorInfo. simpl.
  assert (0 <= i * Buffer.m_alignmentSize b < Int.modulus64) as Hi' by nia.
  assert (0 <= j * Buffer.m_alignmentSize b < Int.modulus64) as Hj' by nia.
  rewrite (index_offset i _ Hi'), (index_offset j _ Hj').
  split; [reflexivity |]. split; [nia |]. split; [nia |].
  unfold Buffer.flushIndex, Buffer.invalidateIndex, Buffer.flush, Buffer.invalidate, call.
  rewrite (index_offset i _ Hi'). split; reflexivity.
Qed.

Lemma index_ranges_tile_the_buffer_witness :
  let at_i := Buffer.descriptorInfoForIndex Sim.three_padded 0 in
  let at_j := Buffer.descriptorInfoForIndex Sim.three_padded 2 in
  let range_i :=
    {| range_memory := Buffer.m_memory Sim.three_padded;
       range_offset := info_offset at_i; range_size := info_range at_i |} in
  info_offset at_i = 0 * Buffer.m_alignmentSize Sim.three_padded /\
  info_offset at_i + info_range at_i <= info_offset at_j /\
  info_offset at_j + info_range at_j
    <= Buffer.m_alignmentSize Sim.three_padded * Buffer.m_instanceCount Sim.three_padded /\
  Buffer.flushIndex Sim.three_padded 0 (Sim.boot 0)
    = Ret (vkFlushMappedMemoryRanges [range_i] (Sim.boot 0)) /\
  Buffer.invalidateIndex Sim.three_padded 0 (Sim.boot 0)
    = Ret (vkInvalidateMappedMemoryRanges [range_i] (Sim.boot 0)).
Proof.
  apply (index_ranges_tile_the_buffer Sim.three_padded 0 2 (Sim.boot 0)).
  - vm_compute. congruence.
  - reflexivity.
  - vm_compute. split; congruence.
  - reflexivity.
Defined.

(** X4: on a buffer mapped whole from offset 0 whose size is the exact
    product of stride and count, writes to two different indices can be made
    in either order: both orders return and leave the same memory. *)
Theorem writeToIndex_commutes
        (b : Buffer.t) (data1 data2 mem : list Byte.byte) (mapped i j : Z) :
  Buffer.m_mapped b = Some (mapping 0 mapped) ->
  Buffer.m_bufferSize b <= mapped <= zlen mem ->
  0 <= Buffer.m_instanceSize b <= Buffer.m_alignmentSize b ->
  Buffer.m_bufferSize b = Buffer.m_alignmentSize b * Buffer.m_instanceCount b ->
  Buffer.m_bufferSize b < Int.modulus64 ->
  Buffer.m_instanceSize b <= zlen data1 ->
  Buffer.m_instanceSize b <= zlen data2 ->
  0 <= i < Buffer.m_instanceCount b ->
  0 <= j < Buffer.m_instanceCount b ->
  i <> j ->
  exists mem1 mem2 mem',
    Buffer.writeToIndex b data1 i mem = Ret mem1 /\
    Buffer.writeToIndex b data2 j mem1 = Ret mem' /\
    Buffer.writeToIndex b data2 j mem = Ret mem2 /\
    Buffer.writeToIndex b data1 i mem2 = Ret mem'.
Proof.
  intros Hmapped Hfit Hsize Hprod Hwrap Hd1 Hd2 Hi Hj Hne.
  assert (forall data k m, 0 <= k < Buffer.m_instanceCount b ->
            Buffer.writeToIndex b data k m
            = store_bytes m (k * Buffer.m_alignmentSize b) data (Buffer.m_instanceSize b))
    as Hstore.
  { intros data k m Hk. apply (writeToIndex_is_store b data m mapped k); try assumption.
    lia. }
  set (a := Buffer.m_alignmentSize b) in *.
  set (s := Buffer.m_instanceSize b) in *.
  set (n := Buffer.m_instanceCount b) in *.
  rewrite Hprod in Hwrap, Hfit.
  assert (forall k, 0 <= k < n -> 0 <= k * a /\ k * a + a <= a * n) as Hslot
    by (intros k Hk; nia).
  destruct (Hslot i Hi) as [Hi0 Hi1]. destruct (Hslot j Hj) as [Hj0 Hj1].
  assert (i * a + s <= j * a \/ j * a + s <= i * a) as Hdisj by nia.
  assert (forall m, zlen m = zlen mem ->
            forall data k, 0 <= k < n -> s <= zlen data ->
            store_bytes m (k * a) data s
            = Ret (take (Z.to_nat (k * a)) m ++ take (Z.to_nat s) data
                   ++ drop (Z.to_nat (k * a + s)) m)) as Hret.
  { intros m Hm data k Hk Hdata. destruct (Hslot k Hk).
    apply store_bytes_Ret; lia. }
  pose proof (Hret mem eq_refl data1 i Hi Hd1) as H1.
  pose proof (Hret mem eq_refl data2 j Hj Hd2) as H2.
  set (mem1 := take (Z.to_nat (i * a)) mem ++ _) in H1.
  set (mem2 := take (Z.to_nat (j * a)) mem ++ _) in H2.
  assert (zlen mem1 = zlen mem) as Hl1
    by (unfold zlen; rewrite (store_bytes_length _ _ _ _ _ H1); reflexivity).
  assert (zlen mem2 = zlen mem) as Hl2
    by (unfold zlen; rewrite (store_bytes_length _ _ _ _ _ H2); reflexivity).
  pose proof (Hret mem1 Hl1 data2 j Hj Hd2) as H12.
  pose proof (Hret mem2 Hl2 data1 i Hi Hd1) as H21.
  set (mem12 := take (Z.to_nat (j * a)) mem1 ++ _) in H12.
  set (mem21 := take (Z.to_nat (i * a)) mem2 ++ _) in H21.
  exists mem1, mem2, mem12. rewrite !Hstore by assumption.
  split; [exact H1 |]. split; [exact H12 |]. split; [exact H2 |].
  rewrite H21. f_equal. apply list_eq. intros k.
  rewrite (store_bytes_lookup _ _ _ _ _ k H21), (store_bytes_lookup _ _ _ _ _ k H12).
  rewrite (store_bytes_lookup _ _ _ _ _ k H1), (store_bytes_lookup _ _ _ _ _ k H2).
  repeat case_decide; try reflexivity; lia.
Qed.

Lemma writeToIndex_commutes_witness :
  exists mem1 mem2 mem',
    Buffer.writeToIndex Sim.three_padded [Byte.x01; Byte.x02; Byte.x03] 0 (Sim.zeros 12)
      = Ret mem1 /\
    Buffer.writeToIndex Sim.three_padded [Byte.x0a; Byte.x0b; Byte.x0c] 2 mem1 = Ret mem' /\
    Buffer.writeToIndex Sim.three_padded [Byte.x0a; Byte.x0b; Byte.x0c] 2 (Sim.zeros 12)
      = Ret mem2 /\
    Buffer.writeToIndex Sim.three_padded [Byte.x01; Byte.x02; Byte.x03] 0 mem2 = Ret mem'.
Proof.
  apply (writeToIndex_commutes Sim.three_padded [Byte.x01; Byte.x02; Byte.x03]
           [Byte.x0a; Byte.x0b; Byte.x0c] (Sim.zeros 12) 12 0 2).
  - reflexivity.
  - vm_compute. split; congruence.
  - vm_compute. split; congruence.
  - reflexivity.
  - reflexivity.
  - vm_compute. congruence.
  - vm_compute. congruence.
  - vm_compute. split; congruence.
  - vm_compute. split; congruence.
  - discriminate.
Defined.

(** X5: under the same conditions a second write to the same index replaces
    the first: the memory is what the second write alone would have left. *)
Theorem writeToIndex_last_write_wins
        (b : Buffer.t) (data1 data2 mem : list Byte.byte) (mapped i : Z) :
  Buffer.m_mapped b = Some (mapping 0 mapped) ->
  Buffer.m_bufferSize b <= mapped <= zlen mem ->
  0 <= Buffer.m_instanceSize b <= Buffer.m_alignmentSize b ->
  Buffer.m_bufferSize b = Buffer.m_alignmentSize b * Buffer.m_instanceCount b ->
  Buffer.m_bufferSize b < Int.modulus64 ->
  Buffer.m_instanceSize b <= zlen data1 ->
  Buffer.m_instanceSize b <= zlen data2 ->
  0 <= i < Buffer.m_instanceCount b ->
  exists mem1 mem',
    Buffer.writeToIndex b data1 i mem = Ret mem1 /\
    Buffer.writeToIndex b data2 i mem1 = Ret mem' /\
    Buffer.writeToIndex b data2 i mem = Ret mem'.
Proof.
  intros Hmapped Hfit Hsize Hprod Hwrap Hd1 Hd2 Hi.
  rewrite !(writeToIndex_is_store b _ _ mapped i) by (try assumption; lia).
  set (a := Buffer.m_alignmentSize b) in *.
  set (s := Buffer.m_instanceSize b) in *.
  set (n := Buffer.m_instanceCount b) in *.
  rewrite Hprod in Hwrap, Hfit.
  assert (0 <= i * a /\ i * a + a <= a * n) as [Hi0 Hi1] by nia.
  pose proof (store_bytes_Ret mem (i * a) data1 s) as H1.
  pose proof (store_bytes_Ret mem (i * a) data2 s) as H2.
  specialize (H1 ltac:(lia) ltac:(lia) ltac:(lia) ltac:(lia)).
  specialize (H2 ltac:(lia) ltac:(lia) ltac:(lia) ltac:(lia)).
  set (mem1 := take (Z.to_nat (i * a)) mem ++ _) in H1.
  set (mem2 := take (Z.to_nat (i * a)) mem ++ _) in H2.
  assert (zlen mem1 = zlen mem) as Hl1
    by (unfold zlen; rewrite (store_bytes_length _ _ _ _ _ H1); reflexivity).
  pose proof (store_bytes_Ret mem1 (i * a) data2 s) as H12.
  specialize (H12 ltac:(lia) ltac:(lia) ltac:(lia) ltac:(lia)).
  exists mem1, mem2. rewrite (writeToIndex_is_store b _ _ mapped i)
    by (try assumption; fold a s n; lia).
  fold a s. split; [exact H1 |]. split; [| exact H2].
  rewrite H12. f_equal. apply list_eq. intros k.
  rewrite (store_bytes_lookup _ _ _ _ _ k H12), (store_bytes_lookup _ _ _ _ _ k H1).
  subst mem2. rewrite (store_bytes_lookup _ _ _ _ _ k H2).
  repeat case_decide; try reflexivity; lia.
Qed.

Lemma writeToIndex_last_write_wins_witness :
  exists mem1 mem',
    Buffer.writeToIndex Sim.three_padded [Byte.x01; Byte.x02; Byte.x03] 1 (Sim.zeros 12)
      = Ret mem1 /\
    Buffer.writeToIndex Sim.three_padded [Byte.x0a; Byte.x0b; Byte.x0c] 1 mem1 = Ret mem' /\
    Buffer.writeToIndex Sim.three_padded [Byte.x0a; Byte.x0b; Byte.x0c] 1 (Sim.zeros 12)
      = Ret mem'.
Proof.
  apply (writeToIndex_last_write_wins Sim.three_padded [Byte.x01; Byte.x02; Byte.x03]
           [Byte.x0a; Byte.x0b; Byte.x0c] (Sim.zeros 12) 12 1).
  - reflexivity.
  - vm_compute. split; congruence.
  - vm_compute. split; congruence.
  - reflexivity.
  - reflexivity.
  - vm_compute. congruence.
  - vm_compute. congruence.
  - vm_compute. split; congruence.
Defined.

(** X6: on a buffer that exists and is not mapped, [map] followed by [unmap]
    gives back the buffer as it was, whatever the device answered: [map]
    stores the device's pointer and returns its result, and [unmap] calls
    [vkUnmapMemory] exactly when that pointer is not null. *)
Theorem map_then_unmap_restores
        {D : Type} `{Vulkan D} (b : Buffer.t) (size offset : Z) (d : D) :
  Buffer.m_mapped b = None ->
  Buffer.m_buffer b <> VK_NULL_HANDLE ->
  Buffer.m_memory b <> VK_NULL_HANDLE ->
  let answer := vkMapMemory (Buffer.m_memory b) offset size None d in
  Buffer.map b size offset d
    = Ret ((answer.1.1, Buffer.set_mapped b answer.1.2), answer.2) /\
  (do r <- Buffer.map b size offset ;; Buffer.unmap r.2) d
    = Ret (b, match answer.1.2 with
              | Some _ => vkUnmapMemory (Buffer.m_memory b) answer.2
              | None => answer.2
              end).
Proof.
  intros Hmapped Hbuffer Hmemory answer.
  assert (Buffer.map b size offset d
          = Ret ((answer.1.1, Buffer.set_mapped b answer.1.2), answer.2)) as Hmap.
  { unfold Buffer.map, bind, assert, call, ret.
    apply Z.eqb_neq in Hbuffer, Hmemory. rewrite Hbuffer, Hmemory. simpl.
    rewrite Hmapped. fold answer. destruct answer as [[res p] d1]. reflexivity. }
  split; [exact Hmap |].
  unfold bind at 1. rewrite Hmap. simpl.
  assert (forall p, Buffer.set_mapped (Buffer.set_mapped b p) None = b) as Hback
    by (intros p; destruct b; simpl in *; subst; reflexivity).
  assert (Buffer.set_mapped b None = b) as Hsame
    by (destruct b; simpl in *; subst; reflexivity).
  unfold Buffer.unmap, bind, call_, ret. simpl.
  destruct (answer.1.2) as [p |]; simpl.
  - rewrite Hback. reflexivity.
  - rewrite Hsame. reflexivity.
Qed.

Lemma map_then_unmap_restores_witness :
  Buffer.map Sim.two_bytes VK_WHOLE_SIZE 0 Sim.with_two_bytes
    = Ret ((VK_SUCCESS, Buffer.set_mapped Sim.two_bytes (Some (mapping 0 2))),
           Sim.log (Sim.MapMemory 2 0 VK_WHOLE_SIZE) Sim.with_two_bytes) /\
  (do r <- Buffer.map Sim.two_bytes VK_WHOLE_SIZE 0 ;; Buffer.unmap r.2) Sim.with_two_bytes
    = Ret (Sim.two_bytes,
           Sim.log (Sim.UnmapMemory 2)
                   (Sim.log (Sim.MapMemory 2 0 VK_WHOLE_SIZE) Sim.with_two_bytes)).
Proof.
  assert (Buffer.m_buffer Sim.two_bytes <> VK_NULL_HANDLE) as Hbuffer by discriminate.
  assert (Buffer.m_memory Sim.two_bytes <> VK_NULL_HANDLE) as Hmemory by discriminate.
  exact (map_then_unmap_restores Sim.two_bytes VK_WHOLE_SIZE 0 Sim.with_two_bytes
           eq_refl Hbuffer Hmemory).
Defined.

(** ** [descriptors.cpp] *)

(** X7: [addBinding] on a binding number that is free returns a builder in
    which that number leads to the binding just described, every other
    number leads to what it led to before, and there is one binding more;
    adding the same number again fails the assertion.  If every binding was
    filed under its own number before, it still is. *)
Theorem addBinding_files_the_binding
        (bld : Descriptors.LayoutBuilder) (number type stage count : Z) :
  Descriptors.builder_bindings bld !! number = None ->
  exists bld',
    Descriptors.addBinding bld number type stage count = Ret bld' /\
    Descriptors.builder_bindings bld' !! number
      = Some {| binding := number; descriptorType := type;
                descriptorCount := count; stageFlags := stage |} /\
    (forall other, other <> number ->
       Descriptors.builder_bindings bld' !! other
       = Descriptors.builder_bindings bld !! other) /\
    size (Descriptors.builder_bindings bld') = S (size (Descriptors.builder_bindings bld)) /\
    (forall type' stage' count',
       Descriptors.addBinding bld' number type' stage' count'
       = AssertionFailed "Binding already in use") /\
    ((forall k v, Descriptors.builder_bindings bld !! k = Some v -> binding v = k) ->
     (forall k v, Descriptors.builder_bindings bld' !! k = Some v -> binding v = k)).
Proof.
  intros Hfree. unfold Descriptors.addBinding. rewrite Hfree.
  eexists. split; [reflexivity |]. simpl.
  split; [apply lookup_insert_eq |].
  split; [intros other Hne; apply lookup_insert_ne; congruence |].
  split; [apply map_size_insert_None; exact Hfree |].
  split.
  - intros type' stage' count'. rewrite lookup_insert_eq. reflexivity.
  - intros Hinv k v. destruct (decide (k = number)) as [-> | Hne].
    + rewrite lookup_insert_eq. intros [= <-]. reflexivity.
    + rewrite lookup_insert_ne by congruence. apply Hinv.
Qed.

Lemma addBinding_files_the_binding_witness :
  exists bld',
    Descriptors.addBinding {| Descriptors.builder_bindings := ∅ |} 0 6 17 1 = Ret bld' /\
    Descriptors.builder_bindings bld' !! 0
      = Some {| binding := 0; descriptorType := 6; descriptorCount := 1; stageFlags := 17 |} /\
    (forall other, other <> 0 ->
       Descriptors.builder_bindings bld' !! other
       = Descriptors.builder_bindings {| Descriptors.builder_bindings := ∅ |} !! other) /\
    size (Descriptors.builder_bindings bld')
      = S (size (Descriptors.builder_bindings {| Descriptors.builder_bindings := ∅ |})) /\
    (forall type' stage' count',
       Descriptors.addBinding bld' 0 type' stage' count'
       = AssertionFailed "Binding already in use") /\
    ((forall k v, Descriptors.builder_bindings {| Descriptors.builder_bindings := ∅ |} !! k
                  = Some v -> binding v = k) ->
     (forall k v, Descriptors.builder_bindings bld' !! k = Some v -> binding v = k)).
Proof.
  apply (addBinding_files_the_binding {| Descriptors.builder_bindings := ∅ |} 0 6 17 1).
  reflexivity.
Defined.

Section WriterFacts.
Import Descriptors WriterInvariant.

Lemma retarget_conforms layout set write :
  conforms layout write -> conforms layout (retarget set write).
Proof. intros (bd & H1 & H2 & H3 & H4). exists bd. repeat split; assumption. Qed.

Lemma writeBuffer_inv w number info w' :
  writeBuffer w number info = Ret w' ->
  exists description,
    m_bindings (m_setLayout w) !! number = Some description /\
    descriptorCount description = 1 /\
    w' = push_write w {| dstSet := VK_NULL_HANDLE; dstBinding := number;
                         write_descriptorType := descriptorType description;
                         write_descriptorCount := 1;
                         pBufferInfo := info; pImageInfo := None |}.
Proof.
  unfold writeBuffer. intros Hw.
  destruct (m_bindings (m_setLayout w) !! number) as [bd |]; [| discriminate].
  destruct (descriptorCount bd =? 1) eqn:Hc; [| discriminate].
  injection Hw as <-. exists bd. apply Z.eqb_eq in Hc. repeat split. exact Hc.
Qed.

Lemma writeImage_inv w number info w' :
  writeImage w number info = Ret w' ->
  exists description,
    m_bindings (m_setLayout w) !! number = Some description /\
    descriptorCount description = 1 /\
    w' = push_write w {| dstSet := VK_NULL_HANDLE; dstBinding := number;
                         write_descriptorType := descriptorType description;
                         write_descriptorCount := 1;
                         pBufferInfo := None; pImageInfo := info |}.
Proof.
  unfold writeImage. intros Hw.
  destruct (m_bindings (m_setLayout w) !! number) as [bd |]; [| discriminate].
  destruct (descriptorCount bd =? 1) eqn:Hc; [| discriminate].
  injection Hw as <-. exists bd. apply Z.eqb_eq in Hc. repeat split. exact Hc.
Qed.

End WriterFacts.

(** X8: whatever sequence of [writeBuffer], [writeImage], [overwrite] and
    [build] calls has returned on a writer since its construction, the writer
    still refers to its layout and pool, and every pending write names a
    binding that the layout declares with a single descriptor and carries
    that binding's descriptor type with a count of one. *)
Theorem pending_writes_conform_to_layout
        (layout : Descriptors.DescriptorSetLayout) (pool : Descriptors.DescriptorPool)
        (w : Descriptors.DescriptorWriter) :
  WriterInvariant.reachable layout pool w ->
  Descriptors.m_setLayout w = layout /\
  Descriptors.m_pool w = pool /\
  Forall (WriterInvariant.conforms layout) (Descriptors.m_writes w).
Proof.
  induction 1 as [| w number info w' _ IH Hw | w number info w' _ IH Hw
                  | D V w set d d' w' _ IH Hw
                  | D V w set d d' success w' set' _ IH Hw].
  - repeat split. constructor.
  - destruct IH as (Hl & Hp & Hall).
    apply writeBuffer_inv in Hw as (bd & Hbd & Hc & ->). simpl.
    repeat split; try assumption.
    apply Forall_app. split; [exact Hall |]. constructor; [| constructor].
    exists bd. rewrite <- Hl. repeat split; assumption.
  - destruct IH as (Hl & Hp & Hall).
    apply writeImage_inv in Hw as (bd & Hbd & Hc & ->). simpl.
    repeat split; try assumption.
    apply Forall_app. split; [exact Hall |]. constructor; [| constructor].
    exists bd. rewrite <- Hl. repeat split; assumption.
  - destruct IH as (Hl & Hp & Hall).
    rewrite overwrite_unfold in Hw. injection Hw as <- _. simpl.
    repeat split; try assumption.
    apply Forall_map. eapply Forall_impl; [exact Hall |].
    intros write. apply retarget_conforms.
  - destruct IH as (Hl & Hp & Hall).
    rewrite build_unfold in Hw. cbv zeta in Hw.
    destruct (_ =? VK_SUCCESS); injection Hw as _ <- _ _; simpl.
    + repeat split; try assumption.
      apply Forall_map. eapply Forall_impl; [exact Hall |].
      intros write. apply retarget_conforms.
    + repeat split; assumption.
Qed.

Lemma pending_writes_conform_to_layout_witness :
  Descriptors.m_setLayout Sim.writer = Sim.layout /\
  Descriptors.m_pool Sim.writer = Sim.pool /\
  Forall (WriterInvariant.conforms Sim.layout) (Descriptors.m_writes Sim.writer).
Proof.
  apply (pending_writes_conform_to_layout Sim.layout Sim.pool Sim.writer).
  apply (WriterInvariant.reach_writeImage Sim.layout Sim.pool
           (Descriptors.push_write (Descriptors.newWriter Sim.layout Sim.pool)
              Sim.buffer_write) 1 (Some Sim.image_info)).
  - apply (WriterInvariant.reach_writeBuffer Sim.layout Sim.pool
             (Descriptors.newWriter Sim.layout Sim.pool) 0 (Some Sim.buffer_info)).
    + apply WriterInvariant.reach_new.
    + reflexivity.
  - reflexivity.
Defined.

(** X9: a buffer write and an image write for two bindings that the layout
    declares with a single descriptor, followed by [build] on a pool that has
    a set left, all return, and the device is handed exactly these two
    writes, in this order, aimed at the new set, with the descriptor types of
    the layout. *)
Theorem two_writes_then_build_reach_the_device
        {D : Type} `{Vulkan D}
        (layout : Descriptors.DescriptorSetLayout) (pool : Descriptors.DescriptorPool)
        (first second : Z) (described1 described2 : VkDescriptorSetLayoutBinding)
        (bufferInfo : option VkDescriptorBufferInfo)
        (imageInfo : option VkDescriptorImageInfo)
        (set : VkDescriptorSet) (d : D) :
  Descriptors.m_bindings layout !! first = Some described1 ->
  descriptorCount described1 = 1 ->
  Descriptors.m_bindings layout !! second = Some described2 ->
  descriptorCount described2 = 1 ->
  let answer :=
    vkAllocateDescriptorSets
      (Descriptors.allocInfo_of pool (Descriptors.getDescriptorSetLayout layout)) set d in
  answer.1.1 = VK_SUCCESS ->
  let writes :=
    [ {| dstSet := answer.1.2; dstBinding := first;
         write_descriptorType := descriptorType described1; write_descriptorCount := 1;
         pBufferInfo := bufferInfo; pImageInfo := None |};
      {| dstSet := answer.1.2; dstBinding := second;
         write_descriptorType := descriptorType described2; write_descriptorCount := 1;
         pBufferInfo := None; pImageInfo := imageInfo |} ] in
  exists w1 w2 w3,
    Descriptors.writeBuffer (Descriptors.newWriter layout pool) first bufferInfo = Ret w1 /\
    Descriptors.writeImage w1 second imageInfo = Ret w2 /\
    Descriptors.build w2 set d
      = Ret ((true, w3, answer.1.2), vkUpdateDescriptorSets writes answer.2) /\
    Descriptors.m_writes w3 = writes.
Proof.
  intros H1 Hc1 H2 Hc2 answer Hok writes.
  apply Z.eqb_eq in Hc1, Hc2.
  eexists _, _, _. split.
  { unfold Descriptors.writeBuffer. simpl. rewrite H1, Hc1. reflexivity. }
  split.
  { unfold Descriptors.writeImage. simpl. rewrite H2, Hc2. reflexivity. }
  rewrite build_unfold. simpl. fold answer.
  apply Z.eqb_eq in Hok. rewrite Hok. split; reflexivity.
Qed.

Lemma two_writes_then_build_reach_the_device_witness :
  exists w1 w2 w3,
    Descriptors.writeBuffer (Descriptors.newWriter Sim.layout Sim.pool) 0
      (Some Sim.buffer_info) = Ret w1 /\
    Descriptors.writeImage w1 1 (Some Sim.image_info) = Ret w2 /\
    Descriptors.build w2 VK_NULL_HANDLE (Sim.boot 1)
      = Ret ((true, w3, 1),
             vkUpdateDescriptorSets
               [Descriptors.retarget 1 Sim.buffer_write;
                Descriptors.retarget 1 Sim.image_write]
               (Sim.allocate
                  (Descriptors.allocInfo_of Sim.pool
                     (Descriptors.getDescriptorSetLayout Sim.layout))
                  VK_NULL_HANDLE (Sim.boot 1)).2) /\
    Descriptors.m_writes w3
      = [Descriptors.retarget 1 Sim.buffer_write; Descriptors.retarget 1 Sim.image_write].
Proof.
  exact (two_writes_then_build_reach_the_device Sim.layout Sim.pool 0 1
           {| binding := 0; descriptorType := 6; descriptorCount := 1; stageFlags := 17 |}
           {| binding := 1; descriptorType := 1; descriptorCount := 1; stageFlags := 16 |}
           (Some Sim.buffer_info) (Some Sim.image_info) VK_NULL_HANDLE (Sim.boot 1)
           eq_refl eq_refl eq_refl eq_refl eq_refl).
Defined.

(** X10: [overwrite] may be repeated: after [overwrite(set1)] and then
    [overwrite(set2)] the writer is the one that [overwrite(set2)] alone
    leaves, and the device has received the same writes twice, first aimed at
    [set1], then at [set2]. *)
Theorem overwrite_last_target_wins
        {D : Type} `{Vulkan D} (w : Descriptors.DescriptorWriter)
        (set1 set2 : VkDescriptorSet) (d : D) :
  let aimed set := List.map (Descriptors.retarget set) (Descriptors.m_writes w) in
  (do w1 <- Descriptors.overwrite w set1 ;; Descriptors.overwrite w1 set2) d
    = Ret (Descriptors.set_writes w (aimed set2),
           vkUpdateDescriptorSets (aimed set2) (vkUpdateDescriptorSets (aimed set1) d)) /\
  Descriptors.overwrite w set2 d
    = Ret (Descriptors.set_writes w (aimed set2), vkUpdateDescriptorSets (aimed set2) d).
Proof.
  intros aimed. split; [| reflexivity].
  assert (List.map (Descriptors.retarget set2) (aimed set1) = aimed set2) as Hagain.
  { unfold aimed. rewrite List.map_map. apply List.map_ext. intros write. reflexivity. }
  unfold bind. rewrite overwrite_unfold. rewrite overwrite_unfold.
  change (Descriptors.m_writes (Descriptors.set_writes w _)) with (aimed set1).
  rewrite Hagain. reflexivity.
Qed.

(** X11: the two definitions of [DescriptorWriter::build] compared on the
    same writer, set and device.  When [vkAllocateDescriptorSets] answers
    [VK_SUCCESS] they do the same: [build] of [descriptors.cpp] is [build] of
    [descriptor_writer.cpp] with [true] added to the result.  For every
    other answer both return, with the same set; the one of
    [descriptors.cpp] returns [false] and the writer as it was, and the
    device of the one of [descriptor_writer.cpp] is the other's device after
    one more [vkUpdateDescriptorSets], of the pending writes aimed at that
    set. *)
Theorem the_two_builds_part_on_failure
        {D : Type} `{Vulkan D} (w : Descriptors.DescriptorWriter)
        (set : VkDescriptorSet) (d : D) :
  let answer :=
    vkAllocateDescriptorSets
      (Descriptors.allocInfo_of (Descriptors.m_pool w)
         (Descriptors.getDescriptorSetLayout (Descriptors.m_setLayout w))) set d in
  (answer.1.1 = VK_SUCCESS ->
   Descriptors.build w set d
   = (do '(w', set') <- DescriptorWriterFile.build w set ;; ret (true, w', set')) d) /\
  (answer.1.1 <> VK_SUCCESS ->
   exists w' set' d',
     Descriptors.build w set d = Ret ((false, w, set'), d') /\
     DescriptorWriterFile.build w set d
     = Ret ((w', set'),
            vkUpdateDescriptorSets
              (List.map (Descriptors.retarget set') (Descriptors.m_writes w)) d') /\
     Descriptors.m_writes w'
     = List.map (Descriptors.retarget set') (Descriptors.m_writes w)).
Proof.
  intros answer. split; intros Hres.
  - unfold bind at 1. rewrite build_unfold, build_file_unfold. fold answer. cbv zeta.
    apply Z.eqb_eq in Hres. rewrite Hres. reflexivity.
  - rewrite build_unfold, build_file_unfold. fold answer. cbv zeta.
    apply Z.eqb_neq in Hres. rewrite Hres.
    eexists _, _, _. split; [reflexivity |]. split; reflexivity.
Qed.

Lemma the_two_builds_part_on_failure_witness :
  Descriptors.build Sim.writer VK_NULL_HANDLE (Sim.boot 1)
  = (do '(w', set') <- DescriptorWriterFile.build Sim.writer VK_NULL_HANDLE ;;
     ret (true, w', set')) (Sim.boot 1) /\
  exists w' set' d',
    Descriptors.build Sim.writer VK_NULL_HANDLE (Sim.boot 0)
    = Ret ((false, Sim.writer, set'), d') /\
    DescriptorWriterFile.build Sim.writer VK_NULL_HANDLE (Sim.boot 0)
    = Ret ((w', set'),
           vkUpdateDescriptorSets
             (List.map (Descriptors.retarget set') (Descriptors.m_writes Sim.writer)) d') /\
    Descriptors.m_writes w'
    = List.map (Descriptors.retarget set') (Descriptors.m_writes Sim.writer).
Proof.
  assert (VK_ERROR_OUT_OF_POOL_MEMORY <> VK_SUCCESS) as Hfailed by discriminate.
  split.
  - exact (proj1 (the_two_builds_part_on_failure Sim.writer VK_NULL_HANDLE (Sim.boot 1))
             eq_refl).
  - exact (proj2 (the_two_builds_part_on_failure Sim.writer VK_NULL_HANDLE (Sim.boot 0))
             Hfailed).
Defined.



(** ** The pool builder of [descriptors.cpp] *)

Section PoolFacts.
Import Descriptors PoolChain.

Lemma default_last_cons {A : Type} (x y : A) (l : list A) :
  default x (last (y :: l)) = default y (last l).
Proof.
  assert (forall (z : A) (k : list A), last (z :: k) = Some (default z (last k))) as Hlast.
  { intros z k. revert z. induction k as [| a k IH]; intros z; [reflexivity |].
    change (last (z :: a :: k)) with (last (a :: k)). rewrite (IH a).
    reflexivity. }
  rewrite Hlast. reflexivity.
Qed.

Lemma chain_fields (bld : PoolBuilder) (calls : list setter) :
  m_poolSizes (chain bld calls) = m_poolSizes bld ++ omap added calls /\
  m_maxSets (chain bld calls) = default (m_maxSets bld) (last (omap max_set calls)) /\
  m_poolFlags (chain bld calls) = default (m_poolFlags bld) (last (omap flags_set calls)).
Proof.
  unfold chain. revert bld.
  induction calls as [| s calls IH]; intros bld.
  - simpl. rewrite app_nil_r. auto.
  - change (foldl apply_setter bld (s :: calls))
      with (foldl apply_setter (apply_setter bld s) calls).
    destruct (IH (apply_setter bld s)) as (-> & -> & ->).
    destruct s as [descriptorType count | flags | count]; simpl;
      rewrite ?default_last_cons, <- ?app_assoc; auto.
Qed.

End PoolFacts.

(** X18: after any chain of [addPoolSize], [setPoolFlags] and [setMaxSets]
    calls on a pool builder, [build] asks the device for a pool with the
    sizes the builder had followed by the sizes added, in the order of the
    calls, with the flags of the last [setPoolFlags] and the maximum of the
    last [setMaxSets], or the builder's own where there was no such call.
    It returns the pool with the handle the device stored when the device
    answers [VK_SUCCESS], and throws for any other answer. *)
Theorem buildPool_after_a_chain_of_setters
        {D : Type} `{Vulkan D} (bld : Descriptors.PoolBuilder)
        (calls : list PoolChain.setter) (d : D) :
  let info :=
    {| poolSizes := Descriptors.m_poolSizes bld ++ omap PoolChain.added calls;
       maxSets := default (Descriptors.m_maxSets bld) (last (omap PoolChain.max_set calls));
       poolFlags :=
         default (Descriptors.m_poolFlags bld) (last (omap PoolChain.flags_set calls)) |} in
  let answer := vkCreateDescriptorPool info d in
  Descriptors.buildPool (PoolChain.chain bld calls) d
  = if answer.1.1 =? VK_SUCCESS
    then Ret ({| Descriptors.m_descriptorPool := answer.1.2 |}, answer.2)
    else Thrown "failed to create descriptor pool!".
Proof.
  intros info answer. subst answer info.
  destruct (chain_fields bld calls) as (Hsizes & Hmax & Hflags).
  unfold Descriptors.buildPool, bind, call, ret, throw. rewrite Hsizes, Hmax, Hflags.
  destruct (vkCreateDescriptorPool _ d) as [[res handle] d']. simpl.
  destruct (res =? VK_SUCCESS); reflexivity.
Qed.

(** ** [event.hpp] *)

Section EventFacts.
Import Events.

Lemma category_bits_differ (a c : EventCategory) :
  a ∈ categories -> c ∈ categories -> (Z.land a c = 0 <-> a <> c).
Proof.
  unfold categories. rewrite !elem_of_cons, !elem_of_nil.
  intros Ha Hc.
  repeat (destruct Ha as [-> | Ha]; [| try contradiction]);
    repeat (destruct Hc as [-> | Hc]; [| try contradiction]);
    vm_compute; split; congruence.
Qed.

End EventFacts.

(** X13: an event whose category flags are the union of some of the six
    categories is in exactly those categories, and no event is in the
    category [None]. *)
Theorem IsInCategory_of_a_union
        (e : Events.Event) (members : list Events.EventCategory)
        (category : Events.EventCategory) :
  Forall (fun m => m ∈ Events.categories) members ->
  category ∈ Events.categories ->
  Events.GetCategoryFlags e = foldr Events.or_ Events.None_ members ->
  (Events.IsInCategory e category = true <-> category ∈ members) /\
  Events.IsInCategory e Events.None_ = false.
Proof.
  intros Hmembers Hcategory Hflags. split.
  - unfold Events.IsInCategory. rewrite Hflags. clear Hflags.
    rewrite negb_true_iff, Z.eqb_neq.
    induction Hmembers as [| m members Hm _ IH]; simpl.
    + rewrite elem_of_nil. unfold Events.None_. rewrite Z.land_0_l. tauto.
    + unfold Events.or_ at 1. rewrite Z.land_lor_distr_l, Z.lor_eq_0_iff, elem_of_cons.
      pose proof (category_bits_differ m category Hm Hcategory) as Hbit.
      split.
      * intros Hne. destruct (decide (category = m)) as [-> | Hd]; [left; reflexivity |].
        right. apply IH. intros H0. apply Hne. split; [| exact H0].
        apply Hbit. congruence.
      * intros [-> | Hin] [H1 H2].
        -- apply Hbit in H1. congruence.
        -- apply IH in Hin. contradiction.
  - unfold Events.IsInCategory, Events.None_. rewrite Z.land_0_r. reflexivity.
Qed.

Lemma IsInCategory_of_a_union_witness :
  (Events.IsInCategory Samples.press Events.Mouse = true
   <-> Events.Mouse ∈ [Events.MouseButton; Events.Mouse; Events.Input]) /\
  Events.IsInCategory Samples.press Events.None_ = false.
Proof.
  apply (IsInCategory_of_a_union Samples.press
           [Events.MouseButton; Events.Mouse; Events.Input] Events.Mouse).
  - unfold Events.categories. repeat constructor.
  - unfold Events.categories. repeat constructor.
  - reflexivity.
Defined.

(** X14: [Dispatch] returns whether the event is of the handler's type and
    never hands a handled event to a handler.  An event of another type, or
    one already handled, comes back unchanged and the handler is not run.
    When two handlers for the type of an unhandled event are tried one after
    the other, the first one runs; the second one runs exactly when the first
    returned [false], and then decides whether the event counts as handled. *)
Theorem Dispatch_stops_at_the_first_taker
        {S : Type} (T : Events.Type_) (first second : Events.Event -> S -> bool * S)
        (e : Events.Event) (s : S) :
  (Events.GetEventType e <> T -> Events.Dispatch T first e s = (false, e, s)) /\
  (Events.GetEventType e = T -> Events.IsHandled e = true ->
   Events.Dispatch T first e s = (true, e, s)) /\
  (Events.GetEventType e = T -> Events.IsHandled e = false ->
   let after_first := Events.Dispatch T first e s in
   let after_second := Events.Dispatch T second after_first.1.2 after_first.2 in
   after_first = (true, Events.SetHandled e (first e s).1, (first e s).2) /\
   ((first e s).1 = true ->
    after_second = (true, Events.SetHandled e true, (first e s).2)) /\
   ((first e s).1 = false ->
    after_second
    = (true, Events.SetHandled e (second e (first e s).2).1,
       (second e (first e s).2).2))).
Proof.
  unfold Events.Dispatch. split; [| split].
  - intros Hne. destruct (decide _) as [Heq | _]; [contradiction | reflexivity].
  - intros Heq Hh. destruct (decide _) as [_ | Hne]; [| contradiction].
    rewrite Hh. reflexivity.
  - intros Heq Hh. cbv zeta.
    destruct (decide (Events.GetEventType e = T)) as [_ | Hne]; [| contradiction].
    rewrite Hh. simpl.
    destruct (first e s) as [handled s1] eqn:Hfirst. simpl.
    split; [reflexivity |].
    destruct (decide (Events.GetEventType e = T)) as [_ | Hne]; [| contradiction].
    split; intros ->; simpl.
    + reflexivity.
    + assert (Events.SetHandled e false = e) as ->
        by (destruct e; simpl in *; subst; reflexivity).
      destruct (second e s1) as [handled2 s2]. reflexivity.
Qed.

Lemma Dispatch_stops_at_the_first_taker_witness :
  let after_first := Events.Dispatch Events.MouseButtonPress Samples.passing Samples.press O in
  let after_second :=
    Events.Dispatch Events.MouseButtonPress Samples.taking after_first.1.2 after_first.2 in
  after_first = (true, Events.SetHandled Samples.press (Samples.passing Samples.press O).1,
                 (Samples.passing Samples.press O).2) /\
  ((Samples.passing Samples.press O).1 = true ->
   after_second = (true, Events.SetHandled Samples.press true,
                   (Samples.passing Samples.press O).2)) /\
  ((Samples.passing Samples.press O).1 = false ->
   after_second
   = (true, Events.SetHandled Samples.press
              (Samples.taking Samples.press (Samples.passing Samples.press O).2).1,
      (Samples.taking Samples.press (Samples.passing Samples.press O).2).2)).
Proof.
  exact (proj2 (proj2 (Dispatch_stops_at_the_first_taker Events.MouseButtonPress
                         Samples.passing Samples.taking Samples.press O))
           eq_refl eq_refl).
Defined.

(** ** [model.cpp] *)

Section LoaderFacts.
Import Model LoaderInvariant.
Context {F : Type} `{Countable F}.
Variable zero : F.
Variable one_minus : F -> F.

Lemma and_then_Ret {A B} (o : outcome A) (k : A -> outcome B) (b : B) :
  and_then o k = Ret b -> exists a, o = Ret a /\ k a = Ret b.
Proof. destruct o; simpl; intros Hk; try discriminate. eauto. Qed.

Lemma element_outcome (l : list F) (k i j : Z) :
  (exists x, element l k i j = Ret x) \/ element l k i j = Undefined.
Proof.
  unfold element. destruct (_ <? _); [| right; reflexivity].
  destruct (l !! _); [left; eauto | right; reflexivity].
Qed.

Lemma element3_outcome (l : list F) (i : Z) :
  (exists x, element3 l i = Ret x) \/ element3 l i = Undefined.
Proof.
  unfold element3.
  destruct (element_outcome l 3 i 0) as [[a ->] | ->]; [| right; reflexivity].
  destruct (element_outcome l 3 i 1) as [[b ->] | ->]; [| right; reflexivity].
  destruct (element_outcome l 3 i 2) as [[c ->] | ->]; [| right; reflexivity].
  left. simpl. eauto.
Qed.

(** Reading past the end of an attribute array is the only thing that can
    go wrong while a vertex is put together. *)
Lemma make_vertex_outcome (attrib : attrib_t) (index : index_t) :
  (exists v, make_vertex zero one_minus attrib index = Ret v) \/
  make_vertex zero one_minus attrib index = Undefined.
Proof.
  unfold make_vertex.
  destruct (0 <=? vertex_index index).
  - destruct (element3_outcome (attrib_vertices attrib) (vertex_index index))
      as [[p ->] | ->]; [| right; reflexivity].
    destruct (element3_outcome (attrib_colors attrib) (vertex_index index))
      as [[c ->] | ->]; [| right; reflexivity].
    simpl. destruct (0 <=? normal_index index).
    + destruct (element3_outcome (attrib_normals attrib) (normal_index index))
        as [[n ->] | ->]; [| right; reflexivity].
      simpl. destruct (0 <=? texcoord_index index); [| left; eauto].
      destruct (element_outcome (attrib_texcoords attrib) 2 (texcoord_index index) 0)
        as [[s ->] | ->]; [| right; reflexivity].
      destruct (element_outcome (attrib_texcoords attrib) 2 (texcoord_index index) 1)
        as [[t ->] | ->]; [| right; reflexivity].
      left. simpl. eauto.
    + simpl. destruct (0 <=? texcoord_index index); [| left; eauto].
      destruct (element_outcome (attrib_texcoords attrib) 2 (texcoord_index index) 0)
        as [[s ->] | ->]; [| right; reflexivity].
      destruct (element_outcome (attrib_texcoords attrib) 2 (texcoord_index index) 1)
        as [[t ->] | ->]; [| right; reflexivity].
      left. simpl. eauto.
  - simpl. destruct (0 <=? normal_index index).
    + destruct (element3_outcome (attrib_normals attrib) (normal_index index))
        as [[n ->] | ->]; [| right; reflexivity].
      simpl. destruct (0 <=? texcoord_index index); [| left; eauto].
      destruct (element_outcome (attrib_texcoords attrib) 2 (texcoord_index index) 0)
        as [[s ->] | ->]; [| right; reflexivity].
      destruct (element_outcome (attrib_texcoords attrib) 2 (texcoord_index index) 1)
        as [[t ->] | ->]; [| right; reflexivity].
      left. simpl. eauto.
    + simpl. destruct (0 <=? texcoord_index index); [| left; eauto].
      destruct (element_outcome (attrib_texcoords attrib) 2 (texcoord_index index) 0)
        as [[s ->] | ->]; [| right; reflexivity].
      destruct (element_outcome (attrib_texcoords attrib) 2 (texcoord_index index) 1)
        as [[t ->] | ->]; [| right; reflexivity].
      left. simpl. eauto.
Qed.

(** A position index past the end of [attrib.vertices]. *)
Lemma make_vertex_past_the_end (attrib : attrib_t) (index : index_t) :
  0 <= vertex_index index ->
  zlen (attrib_vertices attrib) < 3 * vertex_index index + 3 ->
  make_vertex zero one_minus attrib index = Undefined.
Proof.
  intros Hpos Hpast. unfold make_vertex.
  apply Z.leb_le in Hpos as Hb. rewrite Hb.
  assert (element (attrib_vertices attrib) 3 (vertex_index index) 2 = Undefined) as Hlast.
  { unfold element. destruct (_ <? _); [| reflexivity].
    rewrite lookup_ge_None_2; [reflexivity |]. unfold zlen in Hpast. lia. }
  unfold element3. rewrite Hlast.
  destruct (element_outcome (attrib_vertices attrib) 3 (vertex_index index) 0)
    as [[a ->] | ->]; [| reflexivity].
  destruct (element_outcome (attrib_vertices attrib) 3 (vertex_index index) 1)
    as [[b ->] | ->]; reflexivity.
Qed.

Lemma load_indices_app (attrib : attrib_t) (front back : list index_t) (st : loading (F := F)) :
  load_indices zero one_minus attrib (front ++ back) st
  = and_then (load_indices zero one_minus attrib front st)
             (load_indices zero one_minus attrib back).
Proof.
  revert st. induction front as [| index front IH]; intros st; simpl; [reflexivity |].
  destruct (make_vertex zero one_minus attrib index); simpl; auto.
Qed.

Lemma load_shapes_concat (attrib : attrib_t) (shapes : list shape_t) (st : loading (F := F)) :
  load_shapes zero one_minus attrib shapes st
  = load_indices zero one_minus attrib (concat (mesh_indices <$> shapes)) st.
Proof.
  revert st. induction shapes as [| shape shapes IH]; intros st; simpl; [reflexivity |].
  rewrite load_indices_app.
  destruct (load_indices zero one_minus attrib (mesh_indices shape) st); simpl; auto.
Qed.

Lemma corner_of_a_shape (shapes : list shape_t) (shape : shape_t) (index : index_t) :
  shape ∈ shapes -> index ∈ mesh_indices shape ->
  index ∈ concat (mesh_indices <$> shapes).
Proof.
  intros Hshape Hindex. induction shapes as [| first shapes IH]; [inversion Hshape |].
  simpl. apply elem_of_app. apply elem_of_cons in Hshape as [<- | Hshape]; auto.
Qed.

Lemma load_indices_fold (attrib : attrib_t) (idxs : list index_t)
      (built : list (Vertex (F := F))) (st : loading (F := F)) :
  Forall2 (fun index v => make_vertex zero one_minus attrib index = Ret v) idxs built ->
  load_indices zero one_minus attrib idxs st = Ret (foldl add_vertex st built).
Proof.
  intros Hbuilt. revert st.
  induction Hbuilt as [| index v idxs built Hv _ IH]; intros st; simpl; [reflexivity |].
  rewrite Hv. simpl. apply IH.
Qed.

Lemma load_indices_undefined (attrib : attrib_t) (idxs : list index_t)
      (index : index_t) (st : loading (F := F)) :
  index ∈ idxs ->
  make_vertex zero one_minus attrib index = Undefined ->
  load_indices zero one_minus attrib idxs st = Undefined.
Proof.
  intros Hin Hbad. revert st.
  induction idxs as [| first idxs IH]; intros st; [inversion Hin |]. simpl.
  destruct (make_vertex_outcome attrib first) as [[v Hv] | Hv]; rewrite Hv; simpl;
    [| reflexivity].
  apply elem_of_cons in Hin as [-> | Hin]; [congruence | auto].
Qed.

Lemma add_vertex_known (st : loading (F := F)) (v : Vertex (F := F)) (i : Z) :
  uniqueVertices st !! v = Some i ->
  add_vertex st v
  = {| uniqueVertices := uniqueVertices st; vertices := vertices st;
       indices := indices st ++ [i] |}.
Proof. intros Hi. unfold add_vertex. rewrite Hi, Hi. reflexivity. Qed.

Lemma add_vertex_new (st : loading (F := F)) (v : Vertex (F := F)) :
  uniqueVertices st !! v = None ->
  add_vertex st v
  = {| uniqueVertices := <[v := wrap32 (zlen (vertices st))]> (uniqueVertices st);
       vertices := vertices st ++ [v];
       indices := indices st ++ [wrap32 (zlen (vertices st))] |}.
Proof. intros Hi. unfold add_vertex. rewrite Hi. simpl. rewrite lookup_insert_eq. reflexivity. Qed.

Lemma consistent_known (st : loading (F := F)) (v : Vertex (F := F)) :
  consistent st -> v ∈ vertices st ->
  exists i, uniqueVertices st !! v = Some i /\ 0 <= i < zlen (vertices st) /\
            vertices st !! Z.to_nat i = Some v.
Proof.
  intros (_ & _ & Hmap) Hin.
  apply list_elem_of_lookup_1 in Hin as [n Hn].
  exists (Z.of_nat n). rewrite Hmap, Nat2Z.id.
  apply lookup_lt_Some in Hn as Hlt. unfold zlen. repeat split; auto; lia.
Qed.

Lemma consistent_unknown (st : loading (F := F)) (v : Vertex (F := F)) :
  consistent st -> v ∉ vertices st -> uniqueVertices st !! v = None.
Proof.
  intros (_ & _ & Hmap) Hout.
  destruct (uniqueVertices st !! v) as [i |] eqn:Hi; [| reflexivity].
  apply Hmap in Hi as [_ Hi]. apply list_elem_of_lookup_2 in Hi. contradiction.
Qed.

Lemma consistent_start : consistent (start (F := F)).
Proof.
  unfold consistent, start, zlen. simpl. split; [constructor |]. split; [lia |].
  intros v i. rewrite lookup_empty, lookup_nil. split; [discriminate | intros [_ ?]; discriminate].
Qed.

(** One round of the loop: a vertex already in the vector is not added
    again, a new one goes to the end, and in both cases the index pushed is
    the vertex's position in the vector. *)
Lemma add_vertex_spec (st : loading (F := F)) (v : Vertex (F := F)) :
  consistent st ->
  (v ∉ vertices st -> zlen (vertices st) < 2 ^ 32) ->
  let st' := add_vertex st v in
  consistent st' /\
  vertices st' = (if decide (v ∈ vertices st) then vertices st else vertices st ++ [v]) /\
  exists i, indices st' = indices st ++ [i] /\
            0 <= i < zlen (vertices st') /\
            vertices st' !! Z.to_nat i = Some v.
Proof.
  intros Hst Hroom st'. subst st'.
  destruct (decide (v ∈ vertices st)) as [Hin | Hout].
  - destruct (consistent_known st v Hst Hin) as (i & Hi & Hrange & Hat).
    rewrite (add_vertex_known st v i Hi). simpl.
    split; [exact Hst |]. split; [reflexivity |]. exists i. auto.
  - rewrite (add_vertex_new st v (consistent_unknown st v Hst Hout)).
    specialize (Hroom Hout).
    destruct Hst as (Hnodup & Hlen & Hmap).
    assert (wrap32 (zlen (vertices st)) = zlen (vertices st)) as Hwrap.
    { unfold wrap32. apply Z.mod_small. unfold zlen in *. lia. }
    rewrite Hwrap. simpl.
    assert ((vertices st ++ [v]) !! Z.to_nat (zlen (vertices st)) = Some v) as Hlast.
    { unfold zlen. rewrite Nat2Z.id. apply list_lookup_middle. reflexivity. }
    split; [| split; [reflexivity |]].
    + unfold consistent. simpl. split; [| split].
      * apply NoDup_app. split; [exact Hnodup |]. split; [| apply NoDup_singleton].
        intros x Hx Hv. apply list_elem_of_singleton in Hv. subst x. contradiction.
      * unfold zlen in *. rewrite length_app. simpl. lia.
      * intros v' i. destruct (decide (v = v')) as [<- | Hne].
        -- rewrite lookup_insert_eq. split.
           ++ intros [= <-]. split; [unfold zlen; lia | exact Hlast].
           ++ intros [Hi Hat]. f_equal.
              destruct (decide (Z.to_nat i < length (vertices st))%nat) as [Hlt | Hge].
              ** rewrite lookup_app_l in Hat by exact Hlt.
                 apply list_elem_of_lookup_2 in Hat. contradiction.
              ** apply lookup_lt_Some in Hat. rewrite length_app in Hat. simpl in Hat.
                 unfold zlen. lia.
        -- rewrite lookup_insert_ne by exact Hne. rewrite Hmap.
           split; intros [Hi Hat]; (split; [exact Hi |]).
           ++ apply lookup_app_l_Some. exact Hat.
           ++ apply lookup_app_Some in Hat as [Hat | [_ Hat]]; [exact Hat |].
              apply list_lookup_singleton_Some in Hat as [_ ?]. contradiction.
    + exists (zlen (vertices st)). split; [reflexivity |]. split; [| exact Hlast].
      unfold zlen. rewrite length_app. simpl. lia.
Qed.

Lemma first_occurrences_snoc (l : list (Vertex (F := F))) (v : Vertex (F := F)) :
  first_occurrences (l ++ [v])
  = if decide (v ∈ first_occurrences l) then first_occurrences l
    else first_occurrences l ++ [v].
Proof.
  unfold first_occurrences. rewrite reverse_snoc. simpl.
  destruct (decide_rel elem_of v (reverse l)) as [Hin | Hout].
  - rewrite decide_True; [reflexivity |].
    rewrite elem_of_reverse, elem_of_remove_dups. exact Hin.
  - rewrite decide_False; [apply reverse_cons |].
    rewrite elem_of_reverse, elem_of_remove_dups. exact Hout.
Qed.

Lemma first_occurrences_length (l : list (Vertex (F := F))) :
  length (first_occurrences l) = length (remove_dups l).
Proof.
  unfold first_occurrences. rewrite length_reverse.
  apply Permutation_length, NoDup_Permutation; try apply NoDup_remove_dups.
  intros x. rewrite !elem_of_remove_dups. apply elem_of_reverse.
Qed.

(** The loop as a whole, from the empty vectors. *)
Lemma foldl_add_vertex_spec (built : list (Vertex (F := F))) :
  zlen (remove_dups built) <= 2 ^ 32 ->
  let st := foldl add_vertex start built in
  consistent st /\
  vertices st = first_occurrences built /\
  Forall2 (fun v i => 0 <= i < zlen (vertices st) /\ vertices st !! Z.to_nat i = Some v)
          built (indices st).
Proof.
  induction built as [| v built IH] using rev_ind; intros Hroom st; subst st.
  - simpl. split; [apply consistent_start |]. split; [reflexivity | constructor].
  - rewrite foldl_snoc.
    assert (length (first_occurrences built) <= length (first_occurrences (built ++ [v])))%nat
      as Hgrow.
    { rewrite first_occurrences_snoc. destruct (decide _); [lia |].
      rewrite length_app. lia. }
    unfold zlen in Hroom. rewrite <- first_occurrences_length in Hroom.
    destruct IH as (Hst & Hvs & Hidx).
    { unfold zlen. rewrite <- first_occurrences_length. lia. }
    destruct (add_vertex_spec (foldl add_vertex start built) v Hst) as (Hst' & Hvs' & i & Hi & Hrange & Hat).
    { intros Hout. rewrite Hvs in Hout |- *.
      rewrite first_occurrences_snoc, decide_False, length_app in Hroom by exact Hout.
      simpl in Hroom. unfold zlen. lia. }
    split; [exact Hst' |]. split.
    { rewrite Hvs', Hvs, first_occurrences_snoc. reflexivity. }
    rewrite Hi. apply Forall2_app.
    + eapply Forall2_impl; [exact Hidx |]. simpl. intros x j [Hj Hx].
      rewrite Hvs'. destruct (decide _); [auto |].
      split; [unfold zlen in *; rewrite length_app; lia | apply lookup_app_l_Some; exact Hx].
    + constructor; [auto | constructor].
Qed.

End LoaderFacts.

(** X15: when [tinyobj::LoadObj] succeeds, every index read stays inside the
    attribute arrays, and the file has at most [2^32] distinct vertices,
    [loadModel] returns with the distinct vertices of the file, each once and
    in the order of first appearance, and with one index per corner of the
    file that gives the position of that corner's vertex in the vertex
    vector.  [built] lists the vertices that the loop puts together, corner
    by corner. *)
Theorem loadModel_indexes_the_distinct_vertices
        {F : Type} `{Countable F} (zero : F) (one_minus : F -> F)
        (LoadObj : string -> Model.loaded (F := F))
        (builder : Model.Builder (F := F)) (filepath : string)
        (built : list (Model.Vertex (F := F))) :
  let obj := LoadObj filepath in
  Model.load_ok obj = true ->
  Forall2 (fun index v =>
             Model.make_vertex zero one_minus (Model.load_attrib obj) index = Ret v)
          (concat (Model.mesh_indices <$> Model.load_shapes_ obj)) built ->
  zlen (remove_dups built) <= 2 ^ 32 ->
  exists result,
    Model.loadModel zero one_minus LoadObj builder filepath = Ret result /\
    Model.builder_vertices result = LoaderInvariant.first_occurrences built /\
    NoDup (Model.builder_vertices result) /\
    (forall v, v ∈ Model.builder_vertices result <-> v ∈ built) /\
    Forall2 (fun v i =>
               0 <= i < zlen (Model.builder_vertices result) /\
               Model.builder_vertices result !! Z.to_nat i = Some v)
            built (Model.builder_indices result).
Proof.
  intros obj Hok Hbuilt Hroom.
  destruct (foldl_add_vertex_spec built Hroom) as (Hst & Hvs & Hidx).
  exists {| Model.builder_vertices := Model.vertices (foldl Model.add_vertex Model.start built);
            Model.builder_indices := Model.indices (foldl Model.add_vertex Model.start built) |}.
  simpl. split.
  - unfold Model.loadModel. fold obj. rewrite Hok. simpl.
    rewrite load_shapes_concat, (load_indices_fold _ _ _ _ built _ Hbuilt). reflexivity.
  - split; [exact Hvs |]. split; [apply Hst |]. split; [| exact Hidx].
    intros v. rewrite Hvs. unfold LoaderInvariant.first_occurrences.
    rewrite elem_of_reverse, elem_of_remove_dups. apply elem_of_reverse.
Qed.

Lemma loadModel_indexes_the_distinct_vertices_witness :
  exists result,
    Model.loadModel 0 (fun v => 1 - v) Samples.load_square Samples.empty_builder "square.obj"
      = Ret result /\
    Model.builder_vertices result = LoaderInvariant.first_occurrences Samples.square_built /\
    NoDup (Model.builder_vertices result) /\
    (forall v, v ∈ Model.builder_vertices result <-> v ∈ Samples.square_built) /\
    Forall2 (fun v i =>
               0 <= i < zlen (Model.builder_vertices result) /\
               Model.builder_vertices result !! Z.to_nat i = Some v)
            Samples.square_built (Model.builder_indices result).
Proof.
  assert (Forall2 (fun index v =>
                     Model.make_vertex 0 (fun v => 1 - v)
                       (Model.load_attrib (Samples.load_square "square.obj")) index = Ret v)
                  (concat (Model.mesh_indices
                             <$> Model.load_shapes_ (Samples.load_square "square.obj")))
                  Samples.square_built) as Hbuilt
    by (repeat constructor).
  assert (zlen (remove_dups Samples.square_built) <= 2 ^ 32) as Hroom
    by (vm_compute; discriminate).
  exact (loadModel_indexes_the_distinct_vertices 0 (fun v => 1 - v) Samples.load_square
           Samples.empty_builder "square.obj" Samples.square_built eq_refl Hbuilt Hroom).
Defined.

(** X16: what [loadModel] leaves in the builder depends on the attributes
    and on the corners of all shapes taken in order, not on how the corners
    are divided into shapes, and not on what the builder held before the
    call. *)
Theorem loadModel_ignores_shape_boundaries
        {F : Type} `{Countable F} (zero : F) (one_minus : F -> F)
        (LoadObj1 LoadObj2 : string -> Model.loaded (F := F))
        (builder1 builder2 : Model.Builder (F := F)) (filepath1 filepath2 : string) :
  let obj1 := LoadObj1 filepath1 in
  let obj2 := LoadObj2 filepath2 in
  Model.load_ok obj1 = true ->
  Model.load_ok obj2 = true ->
  Model.load_attrib obj1 = Model.load_attrib obj2 ->
  concat (Model.mesh_indices <$> Model.load_shapes_ obj1)
  = concat (Model.mesh_indices <$> Model.load_shapes_ obj2) ->
  Model.loadModel zero one_minus LoadObj1 builder1 filepath1
  = Model.loadModel zero one_minus LoadObj2 builder2 filepath2.
Proof.
  intros obj1 obj2 Hok1 Hok2 Hattrib Hcorners.
  unfold Model.loadModel. fold obj1 obj2. rewrite Hok1, Hok2. simpl.
  rewrite !load_shapes_concat, Hattrib, Hcorners. reflexivity.
Qed.

Lemma loadModel_ignores_shape_boundaries_witness :
  Model.loadModel 0 (fun v => 1 - v) Samples.load_square Samples.empty_builder "square.obj"
  = Model.loadModel 0 (fun v => 1 - v) Samples.load_strip Samples.used_builder "strip.obj".
Proof.
  exact (loadModel_ignores_shape_boundaries 0 (fun v => 1 - v)
           Samples.load_square Samples.load_strip Samples.empty_builder Samples.used_builder
           "square.obj" "strip.obj" eq_refl eq_refl eq_refl eq_refl).
Defined.

(** X17: [loadModel] does not check an index against the attribute arrays.
    When [tinyobj::LoadObj] succeeds and some corner of some shape has a
    position index that is not negative and reaches past the end of
    [attrib.vertices], the call reads outside the array, whatever the other
    corners are: it neither returns nor throws. *)
Theorem loadModel_reads_past_the_end
        {F : Type} `{Countable F} (zero : F) (one_minus : F -> F)
        (LoadObj : string -> Model.loaded (F := F))
        (builder : Model.Builder (F := F)) (filepath : string)
        (shape : Model.shape_t) (index : Model.index_t) :
  let obj := LoadObj filepath in
  Model.load_ok obj = true ->
  shape ∈ Model.load_shapes_ obj ->
  index ∈ Model.mesh_indices shape ->
  0 <= Model.vertex_index index ->
  zlen (Model.attrib_vertices (Model.load_attrib obj)) < 3 * Model.vertex_index index + 3 ->
  Model.loadModel zero one_minus LoadObj builder filepath = Undefined.
Proof.
  intros obj Hok Hshape Hindex Hpos Hpast.
  unfold Model.loadModel. fold obj. rewrite Hok. simpl.
  rewrite load_shapes_concat.
  rewrite (load_indices_undefined zero one_minus _ _ index); [reflexivity | |].
  - apply (corner_of_a_shape _ shape); assumption.
  - apply make_vertex_past_the_end; assumption.
Qed.

Lemma loadModel_reads_past_the_end_witness :
  Model.loadModel 0 (fun v => 1 - v) Samples.load_torn Samples.empty_builder "torn.obj"
  = Undefined.
Proof.
  assert (0 <= Model.vertex_index (Samples.corner 4)) as Hpos by (vm_compute; discriminate).
  assert (zlen (Model.attrib_vertices (Model.load_attrib (Samples.load_torn "torn.obj")))
          < 3 * Model.vertex_index (Samples.corner 4) + 3) as Hpast by reflexivity.
  assert (Samples.corner 4 ∈ Model.mesh_indices Samples.torn_shape) as Hindex
    by (do 2 apply list_elem_of_further; apply list_elem_of_here).
  assert (Samples.torn_shape ∈ Model.load_shapes_ (Samples.load_torn "torn.obj")) as Hshape
    by (apply list_elem_of_further, list_elem_of_here).
  exact (loadModel_reads_past_the_end 0 (fun v => 1 - v) Samples.load_torn
           Samples.empty_builder "torn.obj" Samples.torn_shape (Samples.corner 4)
           eq_refl Hshape Hindex Hpos Hpast).
Defined.
